(** * Restaurant reservation service: booking, cancellation and availability

    A shallow embedding of [src/routes/reservations.js] (the five route
    handlers and their two helpers), of the schemas in
    [src/validators/reservation.js] and of the [Reservation] model, with the
    properties of the service proved over it.

    Conventions.
    - Instants are milliseconds since the epoch ([Z]); a calendar date is a
      day number since the epoch ([Z]); a time of day is the text the code
      handles (['HH:MM']).
    - The reservations table is the list of its rows in insertion order,
      together with the auto-increment counter of the primary key.
    - A route handler is a function from the store to a response and a
      store; [respond] is the handler's [return res.status(..).json(..)].
    - The store answers every query: the [catch] branches of the handlers,
      which answer 500, are not modelled. A failing Table Service is
      modelled ([FetchOutcome]). *)

From Stdlib Require Import ZArith NArith List String Ascii Bool Lia Btauto.
From Stdlib Require Import QArith Qround.
From Stdlib Require Import Permutation Sorted Orders.
From Stdlib Require Import DecimalString.
From Stdlib Require OrderedTypeEx.
Import ListNotations.

Local Open Scope list_scope.
Local Open Scope string_scope.
Local Open Scope Z_scope.

(** ** The fragment of JavaScript the helpers use *)

Module JS.

(** A JavaScript number as [calculateEndTime] meets it: a natural number or
    [NaN]. *)
Inductive number : Type :=
| NaN : number
| Num (n : N) : number.

Definition is_digit (c : ascii) : bool :=
  ((48 <=? N_of_ascii c) && (N_of_ascii c <=? 57))%N.

Definition digit_value (c : ascii) : N := (N_of_ascii c - 48)%N.

(** [str.split(sep)] for a one-character separator. *)
Fixpoint split_from (sep : ascii) (cur : string) (s : string) : list string :=
  match s with
  | EmptyString => [cur]
  | String c rest =>
      if Ascii.eqb c sep then cur :: split_from sep EmptyString rest
      else split_from sep (cur ++ String c EmptyString) rest
  end.

Definition split (sep : ascii) (s : string) : list string :=
  split_from sep EmptyString s.

Fixpoint digits_value (acc : N) (s : string) : number :=
  match s with
  | EmptyString => Num acc
  | String c rest =>
      if is_digit c then digits_value (10 * acc + digit_value c)%N rest
      else NaN
  end.

(** [Number(s)] on the texts the service passes to it: a run of decimal
    digits is its value, the empty text is 0. Every other text is mapped to
    [NaN] (signs, fractions and exponents are not modelled; the validated
    ['HH:MM'] pattern excludes them). *)
Definition Number (s : string) : number := digits_value 0%N s.

(** [String(v)] of a number, or of [undefined] ([None]). *)
Definition String_ (v : option number) : string :=
  match v with
  | None => "undefined"
  | Some NaN => "NaN"
  | Some (Num n) => NilEmpty.string_of_uint (N.to_uint n)
  end.

Fixpoint repeat_char (c : ascii) (n : nat) : string :=
  match n with
  | O => EmptyString
  | S k => String c (repeat_char c k)
  end.

(** [s.padStart(len, fill)] for a one-character [fill]. *)
Definition padStart (len : nat) (fill : ascii) (s : string) : string :=
  repeat_char fill (len - String.length s) ++ s.

(** [(x + 2) % 24] *)
Definition add2_mod24 (v : option number) : number :=
  match v with
  | Some (Num n) => Num ((n + 2) mod 24)%N
  | _ => NaN
  end.

(** [s.substring(0, n)] *)
Definition substring0 (n : nat) (s : string) : string := String.substring 0 n s.

End JS.

(** ** Helper: calculate end time (2-hour slot) *)

(** [function calculateEndTime(startTime)]: split at the colon, convert both
    parts, add two hours modulo 24, and print both zero-padded. *)
Definition calculateEndTime (startTime : string) : string :=
  let parts := map JS.Number (JS.split ":" startTime) in
  let hours := nth_error parts 0 in
  let minutes := nth_error parts 1 in
  let endHours := JS.add2_mod24 hours in
  JS.padStart 2 "0" (JS.String_ (Some endHours)) ++ ":" ++
  JS.padStart 2 "0" (JS.String_ minutes).

(** The pattern of [slot_start_time] in the create schema:
    [/^([01]\d|2[0-3]):([0-5]\d)$/]. *)
Definition char_between (lo hi c : ascii) : bool :=
  ((N_of_ascii lo <=? N_of_ascii c) && (N_of_ascii c <=? N_of_ascii hi))%N.

Definition slot_start_time_pattern (s : string) : bool :=
  match s with
  | String a (String b (String c (String d (String e EmptyString)))) =>
      ((char_between "0" "1" a && JS.is_digit b) ||
       (Ascii.eqb a "2" && char_between "0" "3" b)) &&
      Ascii.eqb c ":" &&
      char_between "0" "5" d && JS.is_digit e
  | _ => false
  end.

(** The text ['HH:MM'] of an hour and a minute, both zero-padded to two
    digits. *)
Definition hhmm (h m : N) : string :=
  JS.padStart 2 "0" (JS.String_ (Some (JS.Num h))) ++ ":" ++
  JS.padStart 2 "0" (JS.String_ (Some (JS.Num m))).

(** ** The data model *)

(** A row of the [reservations] table ([sequelize.define('Reservation', ..)]
    with its [created_at] / [updated_at] timestamps). [status] is the text
    the code compares and assigns. *)
Record Reservation : Type := mkReservation {
  id : Z;
  table_id : Z;
  customer_name : string;
  customer_email : string;
  customer_phone : string;
  guest_count : Z;
  reservation_date : Z;
  slot_start_time : string;
  slot_end_time : string;
  status : string;
  special_requests : option string;
  created_at : Z;
  updated_at : Z
}.

Definition with_status (s : string) (r : Reservation) : Reservation :=
  mkReservation (id r) (table_id r) (customer_name r) (customer_email r)
    (customer_phone r) (guest_count r) (reservation_date r)
    (slot_start_time r) (slot_end_time r) s (special_requests r)
    (created_at r) (updated_at r).

Definition with_updated_at (t : Z) (r : Reservation) : Reservation :=
  mkReservation (id r) (table_id r) (customer_name r) (customer_email r)
    (customer_phone r) (guest_count r) (reservation_date r)
    (slot_start_time r) (slot_end_time r) (status r) (special_requests r)
    (created_at r) t.

(** The table as the Table Service describes it (the attributes consumed). *)
Record Table : Type := mkTable {
  t_id : Z;
  seating_capacity : Z;
  is_active : bool
}.

(** The store: the rows in insertion order and the next primary key. *)
Record Store : Type := mkStore {
  rows : list Reservation;
  next_id : Z
}.

Definition empty_store : Store := mkStore [] 1.

(** What one call of [fetch] on the Table Service does: it throws, or it
    answers with [response.ok] and a body; the body is [None] when
    [response.json()] throws, and carries the [table] key (absent: [None])
    otherwise. *)
Inductive FetchOutcome : Type :=
| FetchThrows : FetchOutcome
| FetchResponse (ok : bool) (body : option (option Table)) : FetchOutcome.

(** What a request finds around it: the clock ([new Date()], [Date.now()]),
    the offset of the server's local time from UTC in milliseconds (for the
    local date and time the request parses), and the Table Service. *)
Record Env : Type := mkEnv {
  now : Z;
  tz_offset : Z;
  fetch : Z -> FetchOutcome
}.

Definition MS_PER_HOUR : Z := 1000 * 60 * 60.
Definition MS_PER_DAY : Z := 24 * MS_PER_HOUR.

(** The instant an ISO date-only text ['YYYY-MM-DD'] denotes: midnight UTC
    of that day. *)
Definition iso_date (day : Z) : Z := day * MS_PER_DAY.

(** ** Validation (the Joi schemas) *)

Inductive Field : Type :=
| F_table_id | F_customer_name | F_customer_email | F_customer_phone
| F_guest_count | F_reservation_date | F_slot_start_time
| F_special_requests | F_date | F_status | F_page | F_limit.

(** The rule a value broke, by Joi's error code. *)
Inductive Rule : Type :=
| any_required | any_only
| number_positive | number_min | number_max
| number_unsafe
| string_empty | string_min | string_max | string_email
| string_pattern_base | date_min.

Definition Issue : Type := (Field * Rule)%type.

(** The message of an issue where the schema sets one. *)
Definition custom_message (i : Issue) : option string :=
  match i with
  | (F_reservation_date, date_min) =>
      Some "Reservation date must be today or in the future"
  | (F_slot_start_time, string_pattern_base) =>
      Some "slot_start_time must be in HH:MM format"
  | _ => None
  end.

Definition rule (f : Field) (r : Rule) (ok : bool) : list Issue :=
  if ok then [] else [(f, r)].

Definition required {A : Type} (f : Field) (v : option A)
    (check : A -> list Issue) : list Issue :=
  match v with
  | None => [(f, any_required)]
  | Some a => check a
  end.

Definition optional {A : Type} (v : option A) (check : A -> list Issue)
    : list Issue :=
  match v with
  | None => []
  | Some a => check a
  end.

Definition len (s : string) : Z := Z.of_nat (String.length s).

(** [Joi.string()]: the empty text is refused before any other rule. *)
Definition string_rules (f : Field) (s : string) (rest : list Issue)
    : list Issue :=
  if String.eqb s "" then [(f, string_empty)] else rest.

(** [Number.MAX_SAFE_INTEGER] *)
Definition MAX_SAFE_INTEGER : Z := 2 ^ 53 - 1.

Definition safe_integer (z : Z) : bool :=
  (- MAX_SAFE_INTEGER <=? z) && (z <=? MAX_SAFE_INTEGER).

(** [Joi.number()]: a number outside the safe integers is refused before
    any other rule. *)
Definition number_rules (f : Field) (z : Z) (rest : list Issue)
    : list Issue :=
  if safe_integer z then rest else [(f, number_unsafe)].

(** The body of a create request, each key absent ([None]) or of its type;
    [b_reservation_date] is the instant the ISO text denotes. A value that
    Joi converts to the type of its key (a numeric text for a number) is
    the value it is converted to. Bodies with other keys, with a value Joi
    cannot convert, or with a number that is not an integer, are answered
    400 and are not values of this record. *)
Record CreateBody : Type := mkCreateBody {
  b_table_id : option Z;
  b_customer_name : option string;
  b_customer_email : option string;
  b_customer_phone : option string;
  b_guest_count : option Z;
  b_reservation_date : option Z;
  b_slot_start_time : option string;
  b_special_requests : option string
}.

(** The validated value of a create request. *)
Record CreateValue : Type := mkCreateValue {
  v_table_id : Z;
  v_customer_name : string;
  v_customer_email : string;
  v_customer_phone : string;
  v_guest_count : Z;
  v_reservation_date : Z;
  v_slot_start_time : string;
  v_special_requests : option string
}.

(** The query of a list request and its validated value. Each key is
    absent ([None]) or the value Joi converts its text to; [q_date] is the
    instant the ISO text denotes. Queries with a text Joi cannot convert,
    or with a number that is not an integer, are answered 400 and are not
    values of this record. *)
Record ListQuery : Type := mkListQuery {
  q_date : option Z;
  q_table_id : option Z;
  q_status : option string;
  q_page : option Z;
  q_limit : option Z
}.

Record ListValue : Type := mkListValue {
  lv_date : option Z;
  lv_table_id : option Z;
  lv_status : option string;
  lv_page : Z;
  lv_limit : Z
}.

(** [queryReservationsSchema]: rule by rule, in key order. *)
Definition query_issues (q : ListQuery) : list Issue :=
  (optional (q_table_id q) (fun t =>
     number_rules F_table_id t
       (rule F_table_id number_positive (0 <? t))) ++
   optional (q_status q) (fun s =>
     rule F_status any_only
       (String.eqb s "confirmed" || String.eqb s "cancelled")) ++
   optional (q_page q) (fun p =>
     number_rules F_page p (rule F_page number_min (1 <=? p))) ++
   optional (q_limit q) (fun l =>
     number_rules F_limit l
       (rule F_limit number_min (1 <=? l) ++
        rule F_limit number_max (l <=? 50))))%list.

Definition default {A : Type} (d : A) (v : option A) : A :=
  match v with
  | Some a => a
  | None => d
  end.

(** [queryReservationsSchema.validate(req.query)]: validation stops at the
    first issue (Joi's default [abortEarly]). *)
Definition queryReservationsSchema (q : ListQuery) : list Issue + ListValue :=
  match query_issues q with
  | [] => inr (mkListValue (q_date q) (q_table_id q) (q_status q)
                 (default 1 (q_page q)) (default 20 (q_limit q)))
  | i :: _ => inl [i]
  end.

(** ** Responses *)

(** The reason carried by an [{ error: .. }] body. *)
Inductive ErrorKind : Type :=
| TableNotFound (tableId : Z)
| TableInactive (tableId : Z)
| CapacityExceeded (guests capacity : Z)
| DoubleBooking
| ReservationNotFound
| AlreadyCancelled
| CancellationWindowViolation
| DateRequired.

(** The [table] key of a fetched reservation: the table, or the placeholder
    [{ id, info: 'Table details unavailable' }]. *)
Inductive TableView : Type :=
| TableInfo (t : Table)
| Placeholder (tableId : Z) (info : string).

Record Slot : Type := mkSlot {
  start_time : string;
  end_time : string;
  available : bool
}.

Inductive Response : Type :=
| ValidationFailed (errors : list Issue)
| Failure (code : Z) (e : ErrorKind)
| Created (reservation : Reservation)
| Listed (reservations : list Reservation) (total page totalPages : Z)
| Fetched (reservation : Reservation) (table : TableView)
| Cancelled (reservation : Reservation)
| Availability (tableId date : Z) (slots : list Slot).

(** The HTTP status of a response. *)
Definition status_code (r : Response) : Z :=
  match r with
  | ValidationFailed _ => 400
  | Failure code _ => code
  | Created _ => 201
  | Listed _ _ _ _ => 200
  | Fetched _ _ => 200
  | Cancelled _ => 200
  | Availability _ _ _ => 200
  end.

(** ** Handlers: store passing with early return *)

Definition Handler (A : Type) : Type := Store -> (Response + A) * Store.

Definition ret {A : Type} (a : A) : Handler A := fun db => (inr a, db).

Definition bind {A B : Type} (m : Handler A) (k : A -> Handler B)
    : Handler B :=
  fun db =>
    match m db with
    | (inl r, db') => (inl r, db')
    | (inr a, db') => k a db'
    end.

(** [return res.status(..).json(..)]: the handler ends here. *)
Definition respond {A : Type} (r : Response) : Handler A :=
  fun db => (inl r, db).

(** [if (c) return res.status(..).json(..)] *)
Definition respond_if (c : bool) (r : Response) : Handler unit :=
  if c then respond r else ret tt.

Definition run (h : Handler Response) (db : Store) : Response * Store :=
  match h db with
  | (inl r, db') => (r, db')
  | (inr r, db') => (r, db')
  end.

Notation "x <- m ;; k" := (bind m (fun x => k))
  (at level 61, m at next level, right associativity).
Notation "m ;;; k" := (bind m (fun _ => k))
  (at level 61, right associativity).

(** ** The [Reservation] model's queries *)

(** A [where] clause: each column is free or fixed to a value. *)
Record Where : Type := mkWhere {
  w_table_id : option Z;
  w_reservation_date : option Z;
  w_slot_start_time : option string;
  w_status : option string
}.

Definition fixed {A : Type} (eqb : A -> A -> bool) (w : option A) (a : A)
    : bool :=
  match w with
  | None => true
  | Some x => eqb a x
  end.

Definition where_matches (w : Where) (r : Reservation) : bool :=
  fixed Z.eqb (w_table_id w) (table_id r) &&
  fixed Z.eqb (w_reservation_date w) (reservation_date r) &&
  fixed String.eqb (w_slot_start_time w) (slot_start_time r) &&
  fixed String.eqb (w_status w) (status r).

(** [ORDER BY reservation_date ASC, slot_start_time ASC] *)
Module ReservationOrder <: TotalLeBool.

Definition t : Type := Reservation.

Definition leb (a b : Reservation) : bool :=
  (reservation_date a <? reservation_date b) ||
  ((reservation_date a =? reservation_date b) &&
   String.leb (slot_start_time a) (slot_start_time b)).

Lemma leb_total : forall a b, leb a b = true \/ leb b a = true.
Proof.
  intros a b. unfold leb.
  destruct (Z.lt_trichotomy (reservation_date a) (reservation_date b))
    as [Hlt | [Heq | Hgt]].
  - left. apply orb_true_iff. left. now apply Z.ltb_lt.
  - rewrite Heq, Z.ltb_irrefl, Z.eqb_refl. simpl.
    apply String.leb_total.
  - right. apply orb_true_iff. left. now apply Z.ltb_lt.
Qed.

End ReservationOrder.

(** The rows in the order of [ORDER BY]: each row is put before the first
    row it does not come after, so rows with the same date and start time
    stay in the order of the table. *)
Fixpoint insert_row (r : Reservation) (l : list Reservation)
    : list Reservation :=
  match l with
  | [] => [r]
  | x :: l' =>
      if ReservationOrder.leb r x then r :: x :: l' else x :: insert_row r l'
  end.

Definition order_rows (l : list Reservation) : list Reservation :=
  fold_right insert_row [] l.

Definition findByPk (k : Z) : Handler (option Reservation) :=
  fun db => (inr (find (fun r => id r =? k) (rows db)), db).

Definition findOne (w : Where) : Handler (option Reservation) :=
  fun db => (inr (find (where_matches w) (rows db)), db).

Definition findAll (w : Where) : Handler (list Reservation) :=
  fun db => (inr (filter (where_matches w) (rows db)), db).

(** [findAndCountAll({ where, order, limit, offset })]: the page of the
    ordered matches, and the number of all matches. *)
Definition findAndCountAll (w : Where) (limit offset : Z)
    : Handler (list Reservation * Z) :=
  fun db =>
    let matching := filter (where_matches w) (rows db) in
    let ordered := order_rows matching in
    (inr (firstn (Z.to_nat limit) (skipn (Z.to_nat offset) ordered),
          Z.of_nat (List.length matching)),
     db).

Section Routes.

(** Joi's [string().email()] rule. *)
Variable is_email : string -> bool.

(** The offset from UTC, in milliseconds, that the server's time zone has
    at an instant (daylight saving makes it depend on the instant). The
    zone is the server's, the same for every request; [tz_offset] of a
    request is the offset this zone has at the local date and time the
    request parses. *)
Variable zone_offset : Z -> Z.

(** The calendar day a [DATEONLY] column keeps of an instant: the day the
    instant falls on in the server's zone
    ([moment(value).format('YYYY-MM-DD')]). *)
Definition dateonly (instant : Z) : Z :=
  (instant + zone_offset instant) / MS_PER_DAY.

(** [Reservation.create({ ...value, slot_end_time, status })]: the row gets
    the next primary key and both timestamps; its [DATEONLY] column keeps
    the day of the value's date. *)
Definition create (env : Env) (value : CreateValue)
    (slotEndTime status : string) : Handler Reservation :=
  fun db =>
    let r := mkReservation (next_id db) (v_table_id value)
               (v_customer_name value) (v_customer_email value)
               (v_customer_phone value) (v_guest_count value)
               (dateonly (v_reservation_date value))
               (v_slot_start_time value) slotEndTime status
               (v_special_requests value) (now env) (now env) in
    (inr r, mkStore (rows db ++ [r])%list (next_id db + 1)).

(** [reservation.save()]: the row of that primary key is written with the
    instance's values and a fresh [updated_at]; the instance is the same
    object, so it carries the new timestamp too. *)
Definition save (env : Env) (r : Reservation) : Handler Reservation :=
  fun db =>
    let saved := with_updated_at (now env) r in
    (inr saved,
     mkStore (map (fun x => if id x =? id r then saved else x) (rows db))
             (next_id db)).

(** ** Helper: fetch table info from Table Service *)

Definition fetchTableInfo (env : Env) (tableId : Z) : option Table :=
  match fetch env tableId with
  | FetchThrows => None
  | FetchResponse false _ => None
  | FetchResponse true None => None
  | FetchResponse true (Some table) => table
  end.

(** ** The routes *)

(** [createReservationSchema]: rule by rule, in key order. The date rule
    [Joi.date().iso().min('now')] compares the instant of the value with
    [Date.now()]. *)
Definition create_issues (env : Env) (b : CreateBody) : list Issue :=
  (required F_table_id (b_table_id b) (fun t =>
     number_rules F_table_id t
       (rule F_table_id number_positive (0 <? t))) ++
   required F_customer_name (b_customer_name b) (fun s =>
     string_rules F_customer_name s
       (rule F_customer_name string_min (1 <=? len s) ++
        rule F_customer_name string_max (len s <=? 100))) ++
   required F_customer_email (b_customer_email b) (fun s =>
     string_rules F_customer_email s
       (rule F_customer_email string_email (is_email s))) ++
   required F_customer_phone (b_customer_phone b) (fun s =>
     string_rules F_customer_phone s
       (rule F_customer_phone string_min (7 <=? len s) ++
        rule F_customer_phone string_max (len s <=? 20))) ++
   required F_guest_count (b_guest_count b) (fun g =>
     number_rules F_guest_count g
       (rule F_guest_count number_min (1 <=? g) ++
        rule F_guest_count number_max (g <=? 20))) ++
   required F_reservation_date (b_reservation_date b) (fun d =>
     rule F_reservation_date date_min (now env <=? d)) ++
   required F_slot_start_time (b_slot_start_time b) (fun s =>
     string_rules F_slot_start_time s
       (rule F_slot_start_time string_pattern_base
          (slot_start_time_pattern s))) ++
   optional (b_special_requests b) (fun s =>
     if String.eqb s "" then []
     else rule F_special_requests string_max (len s <=? 500)))%list.

(** [createReservationSchema.validate(req.body, { abortEarly: false })]:
    every issue is reported; without any, the value is the body. *)
Definition createReservationSchema (env : Env) (b : CreateBody)
    : list Issue + CreateValue :=
  match create_issues env b with
  | [] =>
      match b_table_id b, b_customer_name b, b_customer_email b,
            b_customer_phone b, b_guest_count b, b_reservation_date b,
            b_slot_start_time b with
      | Some t, Some n, Some e, Some p, Some g, Some d, Some s =>
          inr (mkCreateValue t n e p g d s (b_special_requests b))
      | _, _, _, _, _, _, _ => inl []
      end
  | errors => inl errors
  end.

(** [router.post('/')]: book a table. *)
Definition router_post (env : Env) (body : CreateBody) : Handler Response :=
  match createReservationSchema env body with
  | inl errors => respond (ValidationFailed errors)
  | inr value =>
      match fetchTableInfo env (v_table_id value) with
      | None => respond (Failure 400 (TableNotFound (v_table_id value)))
      | Some table =>
          respond_if (negb (is_active table))
            (Failure 400 (TableInactive (v_table_id value))) ;;;
          respond_if (seating_capacity table <? v_guest_count value)
            (Failure 400 (CapacityExceeded (v_guest_count value)
                            (seating_capacity table))) ;;;
          let slotEndTime := calculateEndTime (v_slot_start_time value) in
          existingReservation <-
            findOne (mkWhere (Some (v_table_id value))
                       (Some (dateonly (v_reservation_date value)))
                       (Some (v_slot_start_time value))
                       (Some "confirmed")) ;;
          respond_if (match existingReservation with
                      | Some _ => true
                      | None => false
                      end)
            (Failure 409 DoubleBooking) ;;;
          reservation <- create env value slotEndTime "confirmed" ;;
          ret (Created reservation)
      end
  end.

(** A key of the validated query counts when it is truthy. *)
Definition truthy_number (v : option Z) : option Z :=
  match v with
  | Some z => if z =? 0 then None else Some z
  | None => None
  end.

Definition truthy_string (v : option string) : option string :=
  match v with
  | Some s => if String.eqb s "" then None else Some s
  | None => None
  end.

(** [Math.ceil(count / limit)], with the exact quotient: for a count of rows
    and a limit of at most 50 the floating-point quotient has the same
    ceiling. *)
Definition ceil_div (count limit : Z) : Z :=
  Qceiling (inject_Z count / inject_Z limit)%Q.

(** [router.get('/')]: list reservations with filters. *)
Definition router_get_list (query : ListQuery) : Handler Response :=
  match queryReservationsSchema query with
  | inl errors => respond (ValidationFailed errors)
  | inr value =>
      let where_ := mkWhere (truthy_number (lv_table_id value))
                      (option_map dateonly (lv_date value))
                      None
                      (truthy_string (lv_status value)) in
      let offset := (lv_page value - 1) * lv_limit value in
      found <- findAndCountAll where_ (lv_limit value) offset ;;
      let '(rows_, count) := found in
      ret (Listed rows_ count (lv_page value)
             (ceil_div count (lv_limit value)))
  end.

(** [router.get('/:id')]: reservation details, with the table when the
    Table Service gives it. *)
Definition router_get_id (env : Env) (k : Z) : Handler Response :=
  reservation <- findByPk k ;;
  match reservation with
  | None => respond (Failure 404 ReservationNotFound)
  | Some reservation =>
      let table := fetchTableInfo env (table_id reservation) in
      ret (Fetched reservation
             (match table with
              | Some t => TableInfo t
              | None => Placeholder (table_id reservation)
                          "Table details unavailable"
              end))
  end.

(** [new Date(`${date}T${time}`)]: the local date and time as an instant,
    or Invalid Date ([None]). The time is read in the validated ['HH:MM']
    shape; any other text is mapped to Invalid Date. *)
Definition local_date_time (env : Env) (date : Z) (time : string) : option Z :=
  if slot_start_time_pattern time then
    match map JS.Number (JS.split ":" time) with
    | [JS.Num h; JS.Num m] =>
        Some (date * MS_PER_DAY + (Z.of_N h * 60 + Z.of_N m) * 60 * 1000
              - tz_offset env)
    | _ => None
    end
  else None.

(** [x < 1] on a number that may be [NaN]. The quotient [diffMs / 3600000]
    is exact here; its floating-point rounding is monotone and 1 is a
    float, so the comparison with 1 is the same. *)
Definition less_than_one (x : option Q) : bool :=
  match x with
  | Some q => negb (Qle_bool 1 q)
  | None => false
  end.

(** [router.patch('/:id/cancel')]: cancel a reservation (1hr+ before slot). *)
Definition router_patch_cancel (env : Env) (k : Z) : Handler Response :=
  reservation <- findByPk k ;;
  match reservation with
  | None => respond (Failure 404 ReservationNotFound)
  | Some reservation =>
      respond_if (String.eqb (status reservation) "cancelled")
        (Failure 400 AlreadyCancelled) ;;;
      let reservationDateTime :=
        local_date_time env (reservation_date reservation)
          (slot_start_time reservation) in
      let diffMs := option_map (fun t => t - now env) reservationDateTime in
      let diffHours :=
        option_map (fun d => (inject_Z d / inject_Z MS_PER_HOUR)%Q) diffMs in
      respond_if (less_than_one diffHours)
        (Failure 400 CancellationWindowViolation) ;;;
      saved <- save env (with_status "cancelled" reservation) ;;
      ret (Cancelled saved)
  end.

Definition allSlots : list string :=
  ["10:00"; "12:00"; "14:00"; "16:00"; "18:00"; "20:00"].

(** [array.includes(x)] on texts. *)
Definition includes (l : list string) (x : string) : bool :=
  existsb (String.eqb x) l.

(** [router.get('/tables/:tableId/availability')]: the date is the day the
    [date] query parameter names, [None] when the parameter is missing. *)
Definition router_get_availability (tableId : Z) (date : option Z)
    : Handler Response :=
  match date with
  | None => respond (Failure 400 DateRequired)
  | Some date =>
      bookedReservations <-
        findAll (mkWhere (Some tableId) (Some date) None (Some "confirmed")) ;;
      let bookedSlotTimes :=
        map (fun r => JS.substring0 5 (slot_start_time r))
          bookedReservations in
      let slots :=
        map (fun slot =>
               mkSlot slot (calculateEndTime slot)
                 (negb (includes bookedSlotTimes slot)))
          allSlots in
      ret (Availability tableId date slots)
  end.

(** ** The service as a transition system *)

Inductive Request : Type :=
| POST_reservations (body : CreateBody)
| GET_reservations (query : ListQuery)
| GET_reservation (k : Z)
| PATCH_cancel (k : Z)
| GET_availability (tableId : Z) (date : option Z).

Definition route (env : Env) (req : Request) : Handler Response :=
  match req with
  | POST_reservations body => router_post env body
  | GET_reservations query => router_get_list query
  | GET_reservation k => router_get_id env k
  | PATCH_cancel k => router_patch_cancel env k
  | GET_availability tableId date => router_get_availability tableId date
  end.

(** One request served against the store. *)
Definition handle (env : Env) (req : Request) (db : Store)
    : Response * Store :=
  run (route env req) db.

(** The stores of a sequential run: requests served one after the other,
    each with its own clock and Table Service answer. *)
Inductive steps : Store -> Store -> Prop :=
| steps_refl : forall db, steps db db
| steps_next : forall db db' env req,
    steps db db' -> steps db (snd (handle env req db')).

Definition reachable (db : Store) : Prop := steps empty_store db.

(** ** Vocabulary of the properties *)

(** What [calculateEndTime] owes on one text: the text is ['HH:MM'] for an
    hour and a minute in range and the result is two hours later. *)
Definition end_time_check (s : string) : bool :=
  match map JS.Number (JS.split ":" s) with
  | [JS.Num h; JS.Num m] =>
      ((h <=? 23) && (m <=? 59))%N &&
      String.eqb s (hhmm h m) &&
      String.eqb (calculateEndTime s) (hhmm ((h + 2) mod 24) m)
  | _ => false
  end.

Definition upto (n : nat) : list N := map N.of_nat (seq 0 n).

(** The row is a reservation of this table, day and start time. *)
Definition same_slot (t d : Z) (s : string) (r : Reservation) : bool :=
  (table_id r =? t) && (reservation_date r =? d) &&
  String.eqb (slot_start_time r) s.

(** The row is a confirmed reservation of this table, day and start time. *)
Definition holds_slot (t d : Z) (s : string) (r : Reservation) : bool :=
  same_slot t d s r && String.eqb (status r) "confirmed".

(** At most one confirmed reservation per table, day and start time. *)
Definition unique_confirmed (db : Store) : Prop :=
  forall t d s, (List.length (filter (holds_slot t d s) (rows db)) <= 1)%nat.

(** The two rows agree on everything but [status] and [updated_at]. *)
Definition same_booking (r r' : Reservation) : Prop :=
  id r' = id r /\ table_id r' = table_id r /\
  customer_name r' = customer_name r /\
  customer_email r' = customer_email r /\
  customer_phone r' = customer_phone r /\
  guest_count r' = guest_count r /\
  reservation_date r' = reservation_date r /\
  slot_start_time r' = slot_start_time r /\
  slot_end_time r' = slot_end_time r /\
  special_requests r' = special_requests r /\
  created_at r' = created_at r.

(** The row [create] writes for a validated value. *)
Definition new_row (env : Env) (v : CreateValue) (db : Store) : Reservation :=
  mkReservation (next_id db) (v_table_id v) (v_customer_name v)
    (v_customer_email v) (v_customer_phone v) (v_guest_count v)
    (dateonly (v_reservation_date v)) (v_slot_start_time v)
    (calculateEndTime (v_slot_start_time v)) "confirmed"
    (v_special_requests v) (now env) (now env).

(** The row [save] writes when a reservation is cancelled. *)
Definition cancelled_row (env : Env) (r : Reservation) : Reservation :=
  with_updated_at (now env) (with_status "cancelled" r).

Definition replace_row (r saved : Reservation) (x : Reservation)
    : Reservation :=
  if id x =? id r then saved else x.

(** The three things a request can do: leave the store as it is, append the
    row of a new confirmed reservation whose slot no confirmed row holds, or
    rewrite a row that is not cancelled as cancelled. *)
Inductive effect (env : Env) (db : Store) : Response -> Store -> Prop :=
| effect_none : forall resp,
    (forall r, resp <> Created r) ->
    (forall r, resp <> Cancelled r) ->
    effect env db resp db
| effect_create : forall body v,
    createReservationSchema env body = inr v ->
    find (holds_slot (v_table_id v) (dateonly (v_reservation_date v))
            (v_slot_start_time v)) (rows db) = None ->
    effect env db (Created (new_row env v db))
      (mkStore (rows db ++ [new_row env v db])%list (next_id db + 1))
| effect_cancel : forall k r,
    find (fun x => id x =? k) (rows db) = Some r ->
    String.eqb (status r) "cancelled" = false ->
    effect env db (Cancelled (cancelled_row env r))
      (mkStore (map (replace_row r (cancelled_row env r)) (rows db))
         (next_id db)).

(** A row as the service writes it. *)
Definition row_ok (r : Reservation) : Prop :=
  slot_start_time_pattern (slot_start_time r) = true /\
  (status r = "confirmed" \/ status r = "cancelled") /\
  slot_end_time r = calculateEndTime (slot_start_time r).

Definition store_ok (db : Store) : Prop :=
  Forall row_ok (rows db) /\
  Forall (fun r => id r < next_id db) (rows db) /\
  NoDup (map id (rows db)) /\
  unique_confirmed db.

(** The instant at which the slot of day [date], hour [h] and minute [m]
    starts, in the server's local time. *)
Definition slot_start_instant (env : Env) (date : Z) (h m : N) : Z :=
  date * MS_PER_DAY + (Z.of_N h * 60 + Z.of_N m) * 60 * 1000 - tz_offset env.

(** [diffHours] as the cancel route computes it. *)
Definition diffHours (env : Env) (r : Reservation) : option Q :=
  option_map (fun d => (inject_Z d / inject_Z MS_PER_HOUR)%Q)
    (option_map (fun t => t - now env)
       (local_date_time env (reservation_date r) (slot_start_time r))).

(** The calendar day of the request, in the server's local time. *)
Definition today (env : Env) : Z := (now env + tz_offset env) / MS_PER_DAY.

(** A create request at noon UTC of day 20759 (2026-11-02), on a server in
    UTC, for that same day. *)
Definition noon_env : Env :=
  mkEnv (20759 * MS_PER_DAY + 12 * MS_PER_HOUR) 0
    (fun t => FetchResponse true (Some (Some (mkTable t 4 true)))).

Definition body_for (day : Z) : CreateBody :=
  mkCreateBody (Some 1) (Some "John Doe") (Some "john@example.com")
    (Some "+1234567890") (Some 3) (Some (iso_date day)) (Some "18:00")
    (Some "Window seat").

(** The row passes the filters the query gives: it is of the day of the
    date, of the table and of the status, each when given. *)
Definition passes_filters (q : ListQuery) (r : Reservation) : Prop :=
  (forall d, q_date q = Some d -> reservation_date r = dateonly d) /\
  (forall t, q_table_id q = Some t -> table_id r = t) /\
  (forall s, q_status q = Some s -> status r = s).

Definition matches_filters (q : ListQuery) (r : Reservation) : bool :=
  match q_date q with
  | Some d => reservation_date r =? dateonly d
  | None => true
  end &&
  match q_table_id q with
  | Some t => table_id r =? t
  | None => true
  end &&
  match q_status q with
  | Some s => String.eqb (status r) s
  | None => true
  end.

(** The two rows have the same date and start time. *)
Definition same_key (a b : Reservation) : bool :=
  (reservation_date a =? reservation_date b) &&
  String.eqb (slot_start_time a) (slot_start_time b).

(** Earlier day first; on the same day, earlier start time first. *)
Definition date_then_start (a b : Reservation) : Prop :=
  reservation_date a < reservation_date b \/
  (reservation_date a = reservation_date b /\
   String.leb (slot_start_time a) (slot_start_time b) = true).

(** Every time of day with its minute of the day and its text. *)
Definition times_table : list (N * string) :=
  flat_map (fun h => map (fun m => ((h * 60 + m)%N, hhmm h m)) (upto 60))
    (upto 24).

(** Earlier day first; on the same day, the earlier time of day first. *)
Definition chronological (a b : Reservation) : Prop :=
  reservation_date a < reservation_date b \/
  (reservation_date a = reservation_date b /\
   exists h m h' m',
     ((h <= 23) /\ (m <= 59) /\ (h' <= 23) /\ (m' <= 59))%N /\
     slot_start_time a = hhmm h m /\ slot_start_time b = hhmm h' m' /\
     (h * 60 + m <= h' * 60 + m')%N).

(** The value Joi gives for [body_for day]. *)
Definition value_for (day : Z) : CreateValue :=
  mkCreateValue 1 "John Doe" "john@example.com" "+1234567890" 3
    (iso_date day) "18:00" (Some "Window seat").

(** The reservation of table 1 on day 20812 (2026-12-25) at 18:00, booked
    at noon of 2026-11-02, and the store that holds it alone. *)
Definition booked_row : Reservation :=
  mkReservation 1 1 "John Doe" "john@example.com" "+1234567890" 3 20812
    "18:00" "20:00" "confirmed" (Some "Window seat")
    (now noon_env) (now noon_env).

Definition booked_store : Store := mkStore [booked_row] 2.

(** The minute of the day of hour [h] and minute [m]. *)
Definition minute_of_day (h m : N) : N := (h * 60 + m)%N.

(** The keys of the create schema, in its order. *)
Definition create_fields : list Field :=
  [F_table_id; F_customer_name; F_customer_email; F_customer_phone;
   F_guest_count; F_reservation_date; F_slot_start_time;
   F_special_requests].

(** The key of the body is there where the schema requires it and its value
    is within the schema's bounds. *)
Definition field_ok (env : Env) (b : CreateBody) (f : Field) : bool :=
  match f with
  | F_table_id =>
      match b_table_id b with
      | Some t => (0 <? t) && (t <=? MAX_SAFE_INTEGER)
      | None => false
      end
  | F_customer_name =>
      match b_customer_name b with
      | Some s => (1 <=? len s) && (len s <=? 100)
      | None => false
      end
  | F_customer_email =>
      match b_customer_email b with
      | Some s => negb (String.eqb s "") && is_email s
      | None => false
      end
  | F_customer_phone =>
      match b_customer_phone b with
      | Some s => (7 <=? len s) && (len s <=? 20)
      | None => false
      end
  | F_guest_count =>
      match b_guest_count b with
      | Some g => (1 <=? g) && (g <=? 20)
      | None => false
      end
  | F_reservation_date =>
      match b_reservation_date b with
      | Some d => now env <=? d
      | None => false
      end
  | F_slot_start_time =>
      match b_slot_start_time b with
      | Some s => slot_start_time_pattern s
      | None => false
      end
  | F_special_requests =>
      match b_special_requests b with
      | Some s => len s <=? 500
      | None => true
      end
  | _ => true
  end.

(** The body whose keys are the fields of a validated value. *)
Definition body_of_value (v : CreateValue) : CreateBody :=
  mkCreateBody (Some (v_table_id v)) (Some (v_customer_name v))
    (Some (v_customer_email v)) (Some (v_customer_phone v))
    (Some (v_guest_count v)) (Some (v_reservation_date v))
    (Some (v_slot_start_time v)) (v_special_requests v).

(** The filters and the paging of a list query are within the schema: a
    positive safe integer table_id, a status of the two, a page that is a
    safe integer from 1, a limit from 1 to 50, each when given. *)
Definition query_valid (q : ListQuery) : Prop :=
  (forall t, q_table_id q = Some t -> 0 < t <= MAX_SAFE_INTEGER) /\
  (forall s, q_status q = Some s -> s = "confirmed" \/ s = "cancelled") /\
  (forall p, q_page q = Some p -> 1 <= p <= MAX_SAFE_INTEGER) /\
  (forall l, q_limit q = Some l -> 1 <= l <= 50).

(** The start times the availability route finds booked for a table and a
    day. *)
Definition bookedSlotTimes (tableId date : Z) (db : Store) : list string :=
  map (fun r => JS.substring0 5 (slot_start_time r))
    (filter
       (where_matches
          (mkWhere (Some tableId) (Some date) None (Some "confirmed")))
       (rows db)).

(** The slots the availability route answers for a table and a day. *)
Definition slots_of (tableId date : Z) (db : Store) : list Slot :=
  map (fun slot =>
         mkSlot slot (calculateEndTime slot)
           (negb (includes (bookedSlotTimes tableId date db) slot)))
    allSlots.

(** A row within the bounds of the create schema. *)
Definition row_within_schema (r : Reservation) : Prop :=
  0 < table_id r /\
  1 <= len (customer_name r) <= 100 /\
  customer_email r <> "" /\ is_email (customer_email r) = true /\
  7 <= len (customer_phone r) <= 20 /\
  1 <= guest_count r <= 20 /\
  slot_start_time_pattern (slot_start_time r) = true /\
  slot_end_time r = calculateEndTime (slot_start_time r) /\
  (forall s, special_requests r = Some s -> len s <= 500).

(** The rows a list response carries. *)
Definition listed_rows (resp : Response) : list Reservation :=
  match resp with
  | Listed reservations _ _ _ => reservations
  | _ => []
  end.

(** The query with its page set. *)
Definition with_page (q : ListQuery) (p : Z) : ListQuery :=
  mkListQuery (q_date q) (q_table_id q) (q_status q) (Some p) (q_limit q).

(** The store of [booked_store] after the reservation was cancelled at noon
    of 2026-11-02, and the body with no key. *)
Definition cancelled_store : Store :=
  mkStore [cancelled_row noon_env booked_row] 2.

Definition empty_body : CreateBody :=
  mkCreateBody None None None None None None None None.

Definition no_filter : ListQuery := mkListQuery None None None None None.

(** ** Properties of the slot calculator *)

Lemma char_between_In (lo hi c : ascii) :
  char_between lo hi c = true ->
  In c (map (fun k => ascii_of_N (N.of_nat k))
          (seq (N.to_nat (N_of_ascii lo))
               (S (N.to_nat (N_of_ascii hi)) - N.to_nat (N_of_ascii lo)))).
Proof.
  unfold char_between. intros H.
  apply andb_true_iff in H. destruct H as [Hlo Hhi].
  apply N.leb_le in Hlo. apply N.leb_le in Hhi.
  apply in_map_iff. exists (N.to_nat (N_of_ascii c)). split.
  - rewrite N2Nat.id. apply ascii_N_embedding.
  - apply in_seq. lia.
Qed.

Lemma is_digit_between (c : ascii) :
  JS.is_digit c = char_between "0" "9" c.
Proof. reflexivity. Qed.

Ltac split_in H :=
  vm_compute in H;
  repeat match type of H with
         | _ \/ _ => destruct H as [H | H]; [ subst | ]
         | False => destruct H
         end.

Lemma pattern_end_time_check (s : string) :
  slot_start_time_pattern s = true -> end_time_check s = true.
Proof.
  destruct s as [| a [| b [| c [| d [| e [| x s]]]]]]; try discriminate.
  unfold slot_start_time_pattern.
  rewrite !andb_true_iff, orb_true_iff, !andb_true_iff.
  intros [[[Hh Hc] Hd] He].
  apply Ascii.eqb_eq in Hc. subst c.
  rewrite is_digit_between in He.
  apply char_between_In in Hd, He.
  destruct Hh as [[Ha Hb] | [Ha Hb]].
  - rewrite is_digit_between in Hb.
    apply char_between_In in Ha, Hb.
    split_in Ha; split_in Hb; split_in Hd; split_in He;
      vm_compute; reflexivity.
  - apply Ascii.eqb_eq in Ha. subst a.
    apply char_between_In in Hb.
    split_in Hb; split_in Hd; split_in He; vm_compute; reflexivity.
Qed.

Lemma pattern_parts (s : string) :
  slot_start_time_pattern s = true ->
  exists h m, (h <= 23)%N /\ (m <= 59)%N /\ s = hhmm h m /\
              map JS.Number (JS.split ":" s) = [JS.Num h; JS.Num m] /\
              calculateEndTime s = hhmm ((h + 2) mod 24) m.
Proof.
  intros Hs. apply pattern_end_time_check in Hs.
  unfold end_time_check in Hs.
  destruct (map JS.Number (JS.split ":" s))
    as [| [| h] [| [| m] [| ? ?]]]; try discriminate.
  rewrite !andb_true_iff in Hs. destruct Hs as [[[Hh Hm] Hs] He].
  apply N.leb_le in Hh. apply N.leb_le in Hm.
  apply String.eqb_eq in Hs. apply String.eqb_eq in He.
  exists h, m. auto.
Qed.

Lemma In_upto (n : nat) (k : N) : (k < N.of_nat n)%N -> In k (upto n).
Proof.
  intros H. apply in_map_iff. exists (N.to_nat k). split.
  - apply N2Nat.id.
  - apply in_seq. lia.
Qed.

Lemma hhmm_table :
  forallb (fun h =>
    forallb (fun m =>
      slot_start_time_pattern (hhmm h m) &&
      String.eqb (calculateEndTime (hhmm h m)) (hhmm ((h + 2) mod 24) m))
      (upto 60)) (upto 24) = true.
Proof. vm_compute. reflexivity. Qed.

Lemma calculateEndTime_hhmm (h m : N) :
  (h <= 23)%N -> (m <= 59)%N ->
  slot_start_time_pattern (hhmm h m) = true /\
  calculateEndTime (hhmm h m) = hhmm ((h + 2) mod 24) m.
Proof.
  intros Hh Hm.
  pose proof hhmm_table as T.
  rewrite forallb_forall in T.
  specialize (T h (In_upto 24 h ltac:(lia))).
  rewrite forallb_forall in T.
  specialize (T m (In_upto 60 m ltac:(lia))).
  apply andb_true_iff in T. destruct T as [T1 T2].
  apply String.eqb_eq in T2. now split.
Qed.

(** C4. For every time of day ['HH:MM'] with the hour in [0,23] and the
    minute in [0,59] -- every text the ['HH:MM'] pattern accepts is one, and
    every one is accepted -- [calculateEndTime] returns the text of hour
    [(h + 2) mod 24] and the same minute, both zero-padded; ['23:30'] gives
    ['01:30'] and ['23:00'] gives ['01:00']. *)
Theorem calculateEndTime_wraps :
  (forall s, slot_start_time_pattern s = true ->
     exists h m, (h <= 23)%N /\ (m <= 59)%N /\ s = hhmm h m /\
                 calculateEndTime s = hhmm ((h + 2) mod 24) m) /\
  (forall h m, (h <= 23)%N -> (m <= 59)%N ->
     slot_start_time_pattern (hhmm h m) = true /\
     calculateEndTime (hhmm h m) = hhmm ((h + 2) mod 24) m) /\
  calculateEndTime "23:30" = "01:30" /\
  calculateEndTime "23:00" = "01:00".
Proof.
  split; [| split; [| split ]].
  - intros s Hs.
    destruct (pattern_parts s Hs) as (h & m & Hh & Hm & Heq & _ & He).
    exists h, m. auto.
  - apply calculateEndTime_hhmm.
  - reflexivity.
  - reflexivity.
Qed.

(** ** Unfolding a handler *)

Ltac unfold_handler :=
  unfold handle, run, route, router_post, router_get_list, router_get_id,
    router_patch_cancel, router_get_availability, bind, respond_if, respond,
    ret, findOne, findByPk, findAll, findAndCountAll, create, save.

(** ** The create schema *)

Lemma rule_nil (f : Field) (r : Rule) (ok : bool) :
  rule f r ok = [] -> ok = true.
Proof. destruct ok; [reflexivity | discriminate]. Qed.

Lemma string_rules_nil (f : Field) (s : string) (rest : list Issue) :
  string_rules f s rest = [] -> rest = [].
Proof. unfold string_rules. destruct (String.eqb s ""); [discriminate | auto]. Qed.

Lemma number_rules_nil (f : Field) (z : Z) (rest : list Issue) :
  number_rules f z rest = [] -> safe_integer z = true /\ rest = [].
Proof.
  unfold number_rules. destruct (safe_integer z); [auto | discriminate].
Qed.

Lemma createReservationSchema_value (env : Env) (b : CreateBody)
    (v : CreateValue) :
  createReservationSchema env b = inr v ->
  b_table_id b = Some (v_table_id v) /\
  b_guest_count b = Some (v_guest_count v) /\
  b_reservation_date b = Some (v_reservation_date v) /\
  b_slot_start_time b = Some (v_slot_start_time v) /\
  0 < v_table_id v /\ 1 <= v_guest_count v <= 20 /\
  now env <= v_reservation_date v /\
  slot_start_time_pattern (v_slot_start_time v) = true.
Proof.
  unfold createReservationSchema.
  destruct (create_issues env b) as [| i l] eqn:Hi; [| discriminate].
  unfold create_issues in Hi.
  destruct b as [[t |] [n |] [e |] [p |] [g |] [d |] [s |] sr];
    simpl in *; try discriminate.
  intros Hv. injection Hv as <-. simpl.
  apply app_eq_nil in Hi. destruct Hi as [Ht Hi].
  apply app_eq_nil in Hi. destruct Hi as [_ Hi].
  apply app_eq_nil in Hi. destruct Hi as [_ Hi].
  apply app_eq_nil in Hi. destruct Hi as [_ Hi].
  apply app_eq_nil in Hi. destruct Hi as [Hg Hi].
  apply app_eq_nil in Hi. destruct Hi as [Hd Hi].
  apply app_eq_nil in Hi. destruct Hi as [Hs _].
  apply number_rules_nil in Ht. destruct Ht as [_ Ht]. apply rule_nil in Ht.
  apply number_rules_nil in Hg. destruct Hg as [_ Hg].
  apply app_eq_nil in Hg. destruct Hg as [Hg1 Hg2].
  apply rule_nil in Hg1, Hg2. apply rule_nil in Hd.
  apply string_rules_nil in Hs. apply rule_nil in Hs.
  repeat split; auto; lia.
Qed.

(** ** The routes, case by case *)

Lemma router_post_unfold (env : Env) (body : CreateBody) (db : Store) :
  handle env (POST_reservations body) db =
  match createReservationSchema env body with
  | inl errors => (ValidationFailed errors, db)
  | inr v =>
      match fetchTableInfo env (v_table_id v) with
      | None => (Failure 400 (TableNotFound (v_table_id v)), db)
      | Some table =>
          if negb (is_active table)
          then (Failure 400 (TableInactive (v_table_id v)), db)
          else if seating_capacity table <? v_guest_count v
          then (Failure 400 (CapacityExceeded (v_guest_count v)
                               (seating_capacity table)), db)
          else
            match find (holds_slot (v_table_id v)
                          (dateonly (v_reservation_date v))
                          (v_slot_start_time v)) (rows db) with
            | Some _ => (Failure 409 DoubleBooking, db)
            | None =>
                (Created (new_row env v db),
                 mkStore (rows db ++ [new_row env v db])%list
                   (next_id db + 1))
            end
      end
  end.
Proof.
  unfold_handler.
  destruct (createReservationSchema env body) as [errors | v]; [reflexivity |].
  destruct (fetchTableInfo env (v_table_id v)) as [table |]; [| reflexivity].
  destruct (negb (is_active table)); [reflexivity |].
  destruct (seating_capacity table <? v_guest_count v); [reflexivity |].
  change (where_matches
            (mkWhere (Some (v_table_id v))
               (Some (dateonly (v_reservation_date v)))
               (Some (v_slot_start_time v)) (Some "confirmed")))
    with (holds_slot (v_table_id v) (dateonly (v_reservation_date v))
            (v_slot_start_time v)).
  destruct (find _ (rows db)); reflexivity.
Qed.

Lemma router_patch_cancel_unfold (env : Env) (k : Z) (db : Store) :
  handle env (PATCH_cancel k) db =
  match find (fun x => id x =? k) (rows db) with
  | None => (Failure 404 ReservationNotFound, db)
  | Some r =>
      if String.eqb (status r) "cancelled"
      then (Failure 400 AlreadyCancelled, db)
      else if less_than_one
                (option_map
                   (fun d => (inject_Z d / inject_Z MS_PER_HOUR)%Q)
                   (option_map (fun t => t - now env)
                      (local_date_time env (reservation_date r)
                         (slot_start_time r))))
      then (Failure 400 CancellationWindowViolation, db)
      else (Cancelled (cancelled_row env r),
            mkStore (map (replace_row r (cancelled_row env r)) (rows db))
              (next_id db))
  end.
Proof.
  unfold_handler.
  destruct (find (fun x => id x =? k) (rows db)) as [r |]; [| reflexivity].
  destruct (String.eqb (status r) "cancelled"); [reflexivity |].
  destruct (less_than_one _); reflexivity.
Qed.

Lemma handle_effect (env : Env) (req : Request) (db : Store) :
  effect env db (fst (handle env req db)) (snd (handle env req db)).
Proof.
  destruct req as [body | query | k | k | tableId date].
  - rewrite router_post_unfold.
    destruct (createReservationSchema env body) as [errors | v] eqn:Hv;
      [apply effect_none; discriminate |].
    destruct (fetchTableInfo env (v_table_id v)) as [table |];
      [| apply effect_none; discriminate].
    destruct (negb (is_active table)); [apply effect_none; discriminate |].
    destruct (seating_capacity table <? v_guest_count v);
      [apply effect_none; discriminate |].
    destruct (find _ (rows db)) eqn:Hf; [apply effect_none; discriminate |].
    simpl. now apply effect_create with (body := body).
  - unfold_handler.
    destruct (queryReservationsSchema query);
      simpl; apply effect_none; discriminate.
  - unfold_handler.
    destruct (find (fun r => id r =? k) (rows db));
      simpl; apply effect_none; discriminate.
  - rewrite router_patch_cancel_unfold.
    destruct (find (fun x => id x =? k) (rows db)) as [r |] eqn:Hf;
      [| apply effect_none; discriminate].
    destruct (String.eqb (status r) "cancelled") eqn:Hs;
      [apply effect_none; discriminate |].
    destruct (less_than_one _); [apply effect_none; discriminate |].
    simpl. now apply effect_cancel with (k := k).
  - unfold_handler. destruct date; simpl; apply effect_none; discriminate.
Qed.

(** ** Lists of rows *)

Lemma find_app {A : Type} (f : A -> bool) (l l' : list A) :
  find f (l ++ l')%list =
  match find f l with
  | Some x => Some x
  | None => find f l'
  end.
Proof.
  induction l as [| a l IH]; simpl; [reflexivity |].
  destruct (f a); [reflexivity | exact IH].
Qed.

Lemma find_filter_nil {A : Type} (f : A -> bool) (l : list A) :
  find f l = None -> filter f l = [].
Proof.
  induction l as [| a l IH]; simpl; [reflexivity |].
  destruct (f a); [discriminate | exact IH].
Qed.

Lemma filter_map_length {A : Type} (p : A -> bool) (g : A -> A)
    (l : list A) :
  (forall x, In x l -> p (g x) = true -> p x = true) ->
  (List.length (filter p (map g l)) <= List.length (filter p l))%nat.
Proof.
  induction l as [| a l IH]; simpl; intros H; [lia |].
  assert (IH' := IH (fun x Hx => H x (or_intror Hx))).
  destruct (p (g a)) eqn:Hg.
  - rewrite (H a (or_introl eq_refl) Hg). simpl. lia.
  - destruct (p a); simpl; lia.
Qed.

Lemma find_by_id_replace (r saved : Reservation) (k : Z)
    (l : list Reservation) :
  id saved = id r ->
  find (fun x => id x =? k) (map (replace_row r saved) l) =
  option_map (replace_row r saved) (find (fun x => id x =? k) l).
Proof.
  intros Hid. induction l as [| a l IH]; simpl; [reflexivity |].
  assert (Ha : id (replace_row r saved a) = id a).
  { unfold replace_row. destruct (id a =? id r) eqn:E; [| reflexivity].
    apply Z.eqb_eq in E. congruence. }
  rewrite Ha. destruct (id a =? k); [reflexivity | exact IH].
Qed.

Lemma find_by_id (k : Z) (l : list Reservation) (r : Reservation) :
  find (fun x => id x =? k) l = Some r -> In r l /\ id r = k.
Proof.
  intros H. apply find_some in H. destruct H as [Hin Hk].
  apply Z.eqb_eq in Hk. now split.
Qed.

(** ** Invariants of the store *)

Lemma same_booking_refl (r : Reservation) : same_booking r r.
Proof. unfold same_booking. repeat split. Qed.

Lemma same_booking_trans (a b c : Reservation) :
  same_booking a b -> same_booking b c -> same_booking a c.
Proof. unfold same_booking. intuition congruence. Qed.

Lemma same_booking_cancelled (env : Env) (r : Reservation) :
  same_booking r (cancelled_row env r).
Proof. unfold same_booking. repeat split. Qed.

Lemma holds_slot_iff (t d : Z) (s : string) (r : Reservation) :
  holds_slot t d s r = true <->
  table_id r = t /\ reservation_date r = d /\ slot_start_time r = s /\
  status r = "confirmed".
Proof.
  unfold holds_slot, same_slot.
  rewrite !andb_true_iff, !Z.eqb_eq, !String.eqb_eq. tauto.
Qed.

Lemma row_ok_new (env : Env) (body : CreateBody) (v : CreateValue)
    (db : Store) :
  createReservationSchema env body = inr v -> row_ok (new_row env v db).
Proof.
  intros Hv. apply createReservationSchema_value in Hv.
  unfold row_ok. simpl. intuition.
Qed.

Lemma row_ok_cancelled (env : Env) (r : Reservation) :
  row_ok r -> row_ok (cancelled_row env r).
Proof. unfold row_ok. simpl. intuition. Qed.

Lemma map_id_replace (r saved : Reservation) (l : list Reservation) :
  id saved = id r -> map id (map (replace_row r saved) l) = map id l.
Proof.
  intros Hid. rewrite map_map. apply map_ext. intros x. unfold replace_row.
  destruct (id x =? id r) eqn:E; [| reflexivity].
  apply Z.eqb_eq in E. rewrite Hid. symmetry. exact E.
Qed.

Lemma effect_store_ok (env : Env) (db db' : Store) (resp : Response) :
  store_ok db -> effect env db resp db' -> store_ok db'.
Proof.
  intros (Hrows & Hids & Hnodup & Huniq) He.
  destruct He as [resp _ _ | body v Hv Hfree | k r Hfind Hstatus].
  - repeat split; assumption.
  - split; [| split; [| split]]; simpl.
    + apply Forall_app. split; [exact Hrows |].
      constructor; [| constructor]. now apply row_ok_new with (body := body).
    + apply Forall_app. split.
      * eapply Forall_impl; [| exact Hids]. simpl. intros; lia.
      * constructor; [simpl; lia | constructor].
    + rewrite map_app. apply NoDup_app; [exact Hnodup | |].
      * simpl. constructor; [intros [] | constructor].
      * intros a Ha [Hn | []]. simpl in Hn. subst a.
        apply in_map_iff in Ha. destruct Ha as (x & Hx & Hin).
        rewrite Forall_forall in Hids. specialize (Hids x Hin). lia.
    + intros t d s. simpl. rewrite filter_app, length_app. simpl.
      destruct (holds_slot t d s (new_row env v db)) eqn:Hnew.
      * apply holds_slot_iff in Hnew. simpl in Hnew.
        destruct Hnew as (<- & <- & <- & _).
        rewrite (find_filter_nil _ _ Hfree). simpl. lia.
      * specialize (Huniq t d s). simpl. lia.
  - apply find_by_id in Hfind. destruct Hfind as [Hin Hk].
    assert (Hr : row_ok r) by (rewrite Forall_forall in Hrows; auto).
    split; [| split; [| split]]; simpl.
    + apply Forall_map. eapply Forall_impl; [| exact Hrows].
      intros x Hx. unfold replace_row.
      destruct (id x =? id r); [now apply row_ok_cancelled | exact Hx].
    + apply Forall_map. rewrite Forall_forall in *.
      intros x Hx. unfold replace_row.
      destruct (id x =? id r); simpl; auto.
    + rewrite map_id_replace by reflexivity. exact Hnodup.
    + intros t d s. simpl.
      eapply Nat.le_trans; [| apply (Huniq t d s)].
      apply filter_map_length. intros x _. unfold replace_row.
      destruct (id x =? id r); [| auto].
      intros Hc. apply holds_slot_iff in Hc. simpl in Hc.
      destruct Hc as (_ & _ & _ & Hc). discriminate.
Qed.

Lemma empty_store_ok : store_ok empty_store.
Proof.
  split; [constructor |]. split; [constructor |]. split; [constructor |].
  intros t d s. simpl. lia.
Qed.

Lemma steps_store_ok (db db' : Store) :
  store_ok db -> steps db db' -> store_ok db'.
Proof.
  intros Hok Hs. induction Hs as [db | db db' env req Hs IH]; [exact Hok |].
  eapply effect_store_ok; [exact (IH Hok) | apply handle_effect].
Qed.

Lemma reachable_store_ok (db : Store) : reachable db -> store_ok db.
Proof. apply steps_store_ok, empty_store_ok. Qed.

(** A row found by its key is found by the same key after any request, the
    same booking, with the status it had or cancelled. *)
Lemma effect_find (env : Env) (db db' : Store) (resp : Response) (k : Z)
    (x : Reservation) :
  effect env db resp db' ->
  find (fun r => id r =? k) (rows db) = Some x ->
  exists x',
    find (fun r => id r =? k) (rows db') = Some x' /\
    same_booking x x' /\
    (x' = x \/ (status x <> "cancelled" /\ status x' = "cancelled")).
Proof.
  intros He Hx.
  destruct He as [resp _ _ | body v Hv Hfree | k0 r Hfind Hstatus].
  - exists x. split; [exact Hx |]. split; [apply same_booking_refl | auto].
  - exists x. simpl. rewrite find_app, Hx.
    split; [reflexivity |]. split; [apply same_booking_refl | auto].
  - simpl. rewrite find_by_id_replace by reflexivity. rewrite Hx. simpl.
    unfold replace_row. destruct (id x =? id r) eqn:E.
    + apply Z.eqb_eq in E.
      destruct (find_by_id _ _ _ Hx) as [_ Hk].
      destruct (find_by_id _ _ _ Hfind) as [_ Hk0].
      assert (Hkk : k0 = k) by (rewrite <- Hk, <- Hk0; symmetry; exact E).
      rewrite Hkk, Hx in Hfind. injection Hfind as <-.
      exists (cancelled_row env x). split; [reflexivity |].
      split; [apply same_booking_cancelled |]. right. split.
      * intros Hc. rewrite Hc in Hstatus. discriminate.
      * reflexivity.
    + exists x. split; [reflexivity |].
      split; [apply same_booking_refl | auto].
Qed.

Lemma steps_find (db db' : Store) (k : Z) (x : Reservation) :
  steps db db' ->
  find (fun r => id r =? k) (rows db) = Some x ->
  exists x',
    find (fun r => id r =? k) (rows db') = Some x' /\
    same_booking x x' /\
    (status x' = status x \/ status x' = "cancelled").
Proof.
  intros Hs Hx. induction Hs as [db | db db' env req Hs IH].
  - exists x. split; [exact Hx |]. split; [apply same_booking_refl | auto].
  - destruct (IH Hx) as (y & Hy & Hxy & Hst).
    destruct (effect_find _ _ _ _ _ _ (handle_effect env req db') Hy)
      as (z & Hz & Hyz & Hst').
    exists z. split; [exact Hz |].
    split; [eapply same_booking_trans; eassumption |].
    destruct Hst' as [-> | [_ Hc]]; auto.
Qed.

Lemma find_fresh (n : Z) (l : list Reservation) :
  Forall (fun r => id r < n) l -> find (fun r => id r =? n) l = None.
Proof.
  induction 1 as [| a l Ha _ IH]; simpl; [reflexivity |].
  destruct (id a =? n) eqn:E; [| exact IH].
  apply Z.eqb_eq in E. lia.
Qed.

Lemma In_find_by_id (l : list Reservation) (r : Reservation) :
  NoDup (map id l) -> In r l -> find (fun x => id x =? id r) l = Some r.
Proof.
  induction l as [| a l IH]; simpl; intros Hnd Hin; [contradiction |].
  apply NoDup_cons_iff in Hnd. destruct Hnd as [Ha Hnd].
  destruct Hin as [-> | Hin].
  - now rewrite Z.eqb_refl.
  - destruct (id a =? id r) eqn:E; [| auto].
    apply Z.eqb_eq in E. exfalso. apply Ha. rewrite E. now apply in_map.
Qed.

(** A created response tells what was validated, checked and written. *)
Lemma router_post_created (env : Env) (body : CreateBody) (db db' : Store)
    (r : Reservation) :
  handle env (POST_reservations body) db = (Created r, db') ->
  exists v,
    createReservationSchema env body = inr v /\
    r = new_row env v db /\
    db' = mkStore (rows db ++ [r])%list (next_id db + 1).
Proof.
  rewrite router_post_unfold.
  destruct (createReservationSchema env body) as [errors | v];
    [discriminate |].
  destruct (fetchTableInfo env (v_table_id v)) as [table |];
    [| discriminate].
  destruct (negb (is_active table)); [discriminate |].
  destruct (seating_capacity table <? v_guest_count v); [discriminate |].
  destruct (find _ (rows db)); [discriminate |].
  intros H. injection H as <- <-. exists v. auto.
Qed.

(** ** Double booking *)

(** C1. Sequential requests never double-book. If a create request answers
    201 on a store reached from the empty one, and after any further
    requests the reservation it created is still 'confirmed', then a create
    request with the same table_id, reservation_date and slot_start_time
    that passes validation and the table checks answers 409 (double
    booking) and leaves the store as it was. Consequently every store
    reached by sequential requests has at most one 'confirmed' reservation
    per table, day and start time. *)
Theorem no_double_booking :
  (forall env1 env2 b1 b2 db0 db1 db2 r r' v2 t2,
     reachable db0 ->
     handle env1 (POST_reservations b1) db0 = (Created r, db1) ->
     steps db1 db2 ->
     find (fun x => id x =? id r) (rows db2) = Some r' ->
     status r' = "confirmed" ->
     b_table_id b2 = b_table_id b1 ->
     b_reservation_date b2 = b_reservation_date b1 ->
     b_slot_start_time b2 = b_slot_start_time b1 ->
     createReservationSchema env2 b2 = inr v2 ->
     fetchTableInfo env2 (v_table_id v2) = Some t2 ->
     is_active t2 = true ->
     v_guest_count v2 <= seating_capacity t2 ->
     handle env2 (POST_reservations b2) db2 =
       (Failure 409 DoubleBooking, db2)) /\
  (forall db, reachable db -> unique_confirmed db).
Proof.
  split.
  - intros env1 env2 b1 b2 db0 db1 db2 r r' v2 t2
      Hreach Hpost Hsteps Hfind Hconf Ht Hd Hs Hv2 Hfetch Hactive Hcap.
    apply router_post_created in Hpost.
    destruct Hpost as (v1 & Hv1 & Hr & Hdb1).
    destruct (reachable_store_ok _ Hreach) as (_ & Hids & _ & _).
    assert (Hr1 : find (fun x => id x =? id r) (rows db1) = Some r).
    { rewrite Hdb1, Hr. simpl.
      rewrite find_app, (find_fresh _ _ Hids). simpl.
      now rewrite Z.eqb_refl. }
    destruct (steps_find _ _ _ _ Hsteps Hr1) as (x & Hx & Hsame & _).
    rewrite Hfind in Hx. injection Hx as <-.
    destruct Hsame as (_ & Htable & _ & _ & _ & _ & Hdate & Hslot & _).
    pose proof (createReservationSchema_value _ _ _ Hv1)
      as (Ht1 & _ & Hd1 & Hs1 & _).
    pose proof (createReservationSchema_value _ _ _ Hv2)
      as (Ht2 & _ & Hd2 & Hs2 & _).
    rewrite Ht1, Ht2 in Ht. rewrite Hd1, Hd2 in Hd. rewrite Hs1, Hs2 in Hs.
    injection Ht as Ht. injection Hd as Hd. injection Hs as Hs.
    rewrite router_post_unfold, Hv2, Hfetch, Hactive.
    replace (seating_capacity t2 <? v_guest_count v2) with false
      by (symmetry; apply Z.ltb_ge; exact Hcap).
    cbn [negb].
    destruct (find (holds_slot _ _ _) (rows db2)) eqn:Hnone; [reflexivity |].
    exfalso.
    apply find_some in Hfind. destruct Hfind as [Hin _].
    pose proof (find_none _ _ Hnone _ Hin) as Hfalse.
    assert (Htrue : holds_slot (v_table_id v2)
                      (dateonly (v_reservation_date v2))
                      (v_slot_start_time v2) r' = true).
    { apply holds_slot_iff. rewrite Htable, Hdate, Hslot, Hr. simpl.
      rewrite Ht, Hd, Hs. auto. }
    rewrite Htrue in Hfalse. discriminate.
  - intros db Hreach. apply (reachable_store_ok _ Hreach).
Qed.

(** ** The checks of a create request *)


(** ** Rejections write nothing *)

(** C10. A request that is answered 400, 404 or 409 leaves the store as it
    was: a create request refused by validation, for the table (not found,
    inactive, capacity exceeded) or for double booking writes no row, and a
    cancel request refused as not found, already cancelled or inside the
    window leaves every row unchanged. *)
Theorem rejections_write_nothing :
  forall env req db,
    status_code (fst (handle env req db)) = 400 \/
    status_code (fst (handle env req db)) = 404 \/
    status_code (fst (handle env req db)) = 409 ->
    snd (handle env req db) = db.
Proof.
  intros env req db Hcode.
  destruct (handle_effect env req db)
    as [resp _ _ | body v Hv Hfree | k r Hfind Hstatus].
  - reflexivity.
  - simpl in Hcode. lia.
  - simpl in Hcode. lia.
Qed.

(** ** Cancellation *)

Lemma hours_lt_one_iff (d : Z) :
  (inject_Z d / inject_Z MS_PER_HOUR < 1)%Q <-> d < MS_PER_HOUR.
Proof.
  unfold Qlt, Qdiv, Qmult, Qinv, inject_Z, MS_PER_HOUR. simpl. lia.
Qed.

Lemma less_than_one_true (q : Q) :
  (q < 1)%Q -> less_than_one (Some q) = true.
Proof.
  intros H. unfold less_than_one.
  destruct (Qle_bool 1 q) eqn:E; [| reflexivity].
  apply Qle_bool_iff in E. exfalso. exact (Qlt_not_le _ _ H E).
Qed.

Lemma less_than_one_false (q : Q) :
  (1 <= q)%Q -> less_than_one (Some q) = false.
Proof.
  intros H. unfold less_than_one.
  apply Qle_bool_iff in H. now rewrite H.
Qed.

(** C3. A cancel request on an existing reservation: when the status is
    already 'cancelled' it is refused with 400 AlreadyCancelled, whatever
    the time; otherwise, with diffHours the time from now to the start of
    the slot (reservation_date and slot_start_time) in hours -- below 1
    exactly when fewer than 3600000 milliseconds remain -- it is refused
    with 400 CancellationWindowViolation when diffHours < 1, and when
    diffHours >= 1 it answers 200, the stored status becomes 'cancelled',
    updated_at becomes the time of the request, and every other field is
    as before. *)
Theorem cancel_rules :
  forall env k db r,
    reachable db ->
    find (fun x => id x =? k) (rows db) = Some r ->
    let resp := fst (handle env (PATCH_cancel k) db) in
    let db' := snd (handle env (PATCH_cancel k) db) in
    exists h m,
      (h <= 23)%N /\ (m <= 59)%N /\ slot_start_time r = hhmm h m /\
      let diff :=
        (inject_Z (slot_start_instant env (reservation_date r) h m - now env)
         / inject_Z MS_PER_HOUR)%Q in
      diffHours env r = Some diff /\
      ((diff < 1)%Q <->
       slot_start_instant env (reservation_date r) h m - now env
         < MS_PER_HOUR) /\
      (status r = "cancelled" ->
         resp = Failure 400 AlreadyCancelled /\ db' = db) /\
      (status r <> "cancelled" -> (diff < 1)%Q ->
         resp = Failure 400 CancellationWindowViolation /\ db' = db) /\
      (status r <> "cancelled" -> (1 <= diff)%Q ->
         exists r',
           resp = Cancelled r' /\ status_code resp = 200 /\
           find (fun x => id x =? k) (rows db') = Some r' /\
           status r' = "cancelled" /\
           updated_at r' = now env /\
           (updated_at r <> now env -> updated_at r' <> updated_at r) /\
           same_booking r r').
Proof.
  intros env k db r Hreach Hfind resp db'.
  destruct (reachable_store_ok _ Hreach) as (Hrows & _).
  destruct (find_by_id _ _ _ Hfind) as [Hin Hk].
  rewrite Forall_forall in Hrows. destruct (Hrows r Hin) as (Hpat & _ & _).
  destruct (pattern_parts _ Hpat) as (h & m & Hh & Hm & Hs & Hparts & _).
  exists h, m. split; [exact Hh |]. split; [exact Hm |]. split; [exact Hs |].
  assert (Hdiff : diffHours env r =
            Some (inject_Z
                    (slot_start_instant env (reservation_date r) h m -
                     now env) / inject_Z MS_PER_HOUR)%Q).
  { unfold diffHours, local_date_time. rewrite Hpat, Hparts. reflexivity. }
  cbv zeta. split; [exact Hdiff |].
  split; [apply hours_lt_one_iff |].
  subst resp db'. rewrite router_patch_cancel_unfold, Hfind.
  fold (diffHours env r). rewrite Hdiff.
  split; [| split].
  - intros ->. simpl. auto.
  - intros Hst Hlt.
    destruct (String.eqb (status r) "cancelled") eqn:E;
      [apply String.eqb_eq in E; contradiction |].
    rewrite (less_than_one_true _ Hlt). simpl. auto.
  - intros Hst Hge.
    destruct (String.eqb (status r) "cancelled") eqn:E;
      [apply String.eqb_eq in E; contradiction |].
    rewrite (less_than_one_false _ Hge).
    exists (cancelled_row env r). cbn [fst snd rows status_code].
    split; [reflexivity |]. split; [reflexivity |].
    split.
    { rewrite find_by_id_replace by reflexivity. rewrite Hfind. simpl.
      unfold replace_row. now rewrite Z.eqb_refl. }
    split; [reflexivity |]. split; [reflexivity |].
    split; [simpl; auto |]. apply same_booking_cancelled.
Qed.

(** ** Availability *)

Lemma substring0_pattern (s : string) :
  slot_start_time_pattern s = true -> JS.substring0 5 s = s.
Proof.
  destruct s as [| a [| b [| c [| d [| e [| x s]]]]]]; try discriminate.
  reflexivity.
Qed.

Lemma where_confirmed_iff (t d : Z) (r : Reservation) :
  where_matches (mkWhere (Some t) (Some d) None (Some "confirmed")) r = true
  <-> table_id r = t /\ reservation_date r = d /\ status r = "confirmed".
Proof.
  unfold where_matches, fixed. simpl.
  rewrite !andb_true_iff, !Z.eqb_eq, String.eqb_eq. tauto.
Qed.

(** C5. The availability of a table on a day is the six fixed slots 10:00,
    12:00, 14:00, 16:00, 18:00, 20:00 in that order, each ending at
    [calculateEndTime] of its start, and each available exactly when no
    'confirmed' reservation of that table and day starts at it; so
    reservations that are 'cancelled' block nothing, and without confirmed
    reservations every slot is available. *)
Theorem availability_slots :
  forall env tableId date db,
    reachable db ->
    let booked_at (start : string) :=
      exists r, In r (rows db) /\ table_id r = tableId /\
                reservation_date r = date /\ status r = "confirmed" /\
                slot_start_time r = start in
    exists slots,
      handle env (GET_availability tableId (Some date)) db =
        (Availability tableId date slots, db) /\
      map start_time slots =
        ["10:00"; "12:00"; "14:00"; "16:00"; "18:00"; "20:00"] /\
      (forall sl, In sl slots ->
         end_time sl = calculateEndTime (start_time sl) /\
         (available sl = true <-> ~ booked_at (start_time sl))) /\
      ((forall r, In r (rows db) -> table_id r = tableId ->
                  reservation_date r = date -> status r = "cancelled") ->
       forall sl, In sl slots -> available sl = true) /\
      ((forall r, In r (rows db) -> table_id r = tableId ->
                  reservation_date r = date -> status r <> "confirmed") ->
       forall sl, In sl slots -> available sl = true).
Proof.
  intros env tableId date db Hreach booked_at.
  destruct (reachable_store_ok _ Hreach) as (Hrows & _).
  rewrite Forall_forall in Hrows.
  set (w := mkWhere (Some tableId) (Some date) None (Some "confirmed")).
  set (bookedSlotTimes :=
         map (fun r => JS.substring0 5 (slot_start_time r))
           (filter (where_matches w) (rows db))).
  exists (map (fun slot =>
                 mkSlot slot (calculateEndTime slot)
                   (negb (includes bookedSlotTimes slot))) allSlots).
  assert (Hbooked : forall start,
            includes bookedSlotTimes start = true <-> booked_at start).
  { intros start. unfold includes. rewrite existsb_exists. split.
    - intros (x & Hx & Heq). apply String.eqb_eq in Heq. subst x.
      apply in_map_iff in Hx. destruct Hx as (r & Hr & Hin).
      apply filter_In in Hin. destruct Hin as [Hin Hw].
      apply where_confirmed_iff in Hw.
      rewrite substring0_pattern in Hr by apply (Hrows r Hin).
      exists r. tauto.
    - intros (r & Hin & Ht & Hd & Hst & Hs).
      exists start. split; [| apply String.eqb_refl].
      apply in_map_iff. exists r. split.
      + rewrite substring0_pattern by apply (Hrows r Hin). exact Hs.
      + apply filter_In. split; [exact Hin |].
        apply where_confirmed_iff. auto. }
  assert (Hslots : forall sl,
            In sl (map (fun slot =>
                          mkSlot slot (calculateEndTime slot)
                            (negb (includes bookedSlotTimes slot)))
                     allSlots) ->
            end_time sl = calculateEndTime (start_time sl) /\
            (available sl = true <-> ~ booked_at (start_time sl))).
  { intros sl Hsl. apply in_map_iff in Hsl.
    destruct Hsl as (slot & <- & _). simpl. split; [reflexivity |].
    rewrite negb_true_iff, <- Hbooked.
    destruct (includes bookedSlotTimes slot); split; intros H;
      try reflexivity; try discriminate; try (intros H'; discriminate).
    exfalso. apply H. reflexivity. }
  split; [reflexivity |]. split; [reflexivity |].
  split; [exact Hslots |]. split.
  - intros Hall sl Hsl. apply (Hslots sl Hsl).
    intros (r & Hin & Ht & Hd & Hst & _).
    rewrite (Hall r Hin Ht Hd) in Hst. discriminate.
  - intros Hall sl Hsl. apply (Hslots sl Hsl).
    intros (r & Hin & Ht & Hd & Hst & _).
    exact (Hall r Hin Ht Hd Hst).
Qed.

(** ** The life of a reservation *)

Lemma effect_length (env : Env) (db db' : Store) (resp : Response) :
  effect env db resp db' ->
  (List.length (rows db) <= List.length (rows db'))%nat.
Proof.
  intros He. destruct He as [resp _ _ | body v Hv Hfree | k r Hfind Hstatus].
  - lia.
  - simpl. rewrite length_app. simpl. lia.
  - simpl. rewrite length_map. lia.
Qed.

(** C6. In every store reached by sequential requests each reservation's
    status is 'confirmed' or 'cancelled'; a request leaves the status of an
    existing reservation as it is or takes it from 'confirmed' to
    'cancelled'; a cancelled reservation stays cancelled through any
    further requests; and no request removes a row: every reservation is
    still stored, under its key, after the request. *)
Theorem status_lifecycle :
  (forall db, reachable db ->
     forall r, In r (rows db) ->
       status r = "confirmed" \/ status r = "cancelled") /\
  (forall db env req r, reachable db -> In r (rows db) ->
     exists r',
       In r' (rows (snd (handle env req db))) /\
       find (fun x => id x =? id r) (rows (snd (handle env req db)))
         = Some r' /\
       id r' = id r /\
       (status r' = status r \/
        (status r = "confirmed" /\ status r' = "cancelled"))) /\
  (forall db db' r, reachable db -> steps db db' -> In r (rows db) ->
     status r = "cancelled" ->
     exists r', In r' (rows db') /\ id r' = id r /\
                status r' = "cancelled") /\
  (forall db env req,
     (List.length (rows db) <=
      List.length (rows (snd (handle env req db))))%nat).
Proof.
  split; [| split; [| split]].
  - intros db Hreach r Hin.
    destruct (reachable_store_ok _ Hreach) as (Hrows & _).
    rewrite Forall_forall in Hrows. apply (Hrows r Hin).
  - intros db env req r Hreach Hin.
    destruct (reachable_store_ok _ Hreach) as (Hrows & _ & Hnodup & _).
    rewrite Forall_forall in Hrows.
    destruct (Hrows r Hin) as (_ & Hst & _).
    pose proof (In_find_by_id _ _ Hnodup Hin) as Hfind.
    destruct (effect_find _ _ _ _ _ _ (handle_effect env req db) Hfind)
      as (r' & Hfind' & Hsame & Hstatus).
    exists r'. destruct (find_by_id _ _ _ Hfind') as [Hin' Hid].
    split; [exact Hin' |]. split; [exact Hfind' |]. split; [exact Hid |].
    destruct Hstatus as [-> | [Hnot ->]]; [auto |].
    right. split; [| reflexivity].
    destruct Hst as [Hst | Hst]; [exact Hst | contradiction].
  - intros db db' r Hreach Hsteps Hin Hst.
    destruct (reachable_store_ok _ Hreach) as (_ & _ & Hnodup & _).
    pose proof (In_find_by_id _ _ Hnodup Hin) as Hfind.
    destruct (steps_find _ _ _ _ Hsteps Hfind) as (r' & Hfind' & _ & Hs).
    exists r'. destruct (find_by_id _ _ _ Hfind') as [Hin' Hid].
    split; [exact Hin' |]. split; [exact Hid |].
    destruct Hs as [Hs | Hs]; [now rewrite Hs | exact Hs].
  - intros db env req. eapply effect_length. apply handle_effect.
Qed.

(** ** Fetching a reservation *)

(** C8. A get-by-id request answers 404 when no reservation has the key;
    when one has, it answers 200 with the reservation and, under [table],
    the table the Table Service gave, or -- when the lookup failed (the
    call threw, the answer was not ok, or it had no usable body) -- the
    placeholder with the table id and 'Table details unavailable'. The
    store is as before. *)
Theorem get_by_id :
  forall env k db,
    (find (fun x => id x =? k) (rows db) = None ->
       handle env (GET_reservation k) db =
         (Failure 404 ReservationNotFound, db)) /\
    (forall r, find (fun x => id x =? k) (rows db) = Some r ->
       exists view,
         handle env (GET_reservation k) db = (Fetched r view, db) /\
         status_code (fst (handle env (GET_reservation k) db)) = 200 /\
         (forall t, fetchTableInfo env (table_id r) = Some t ->
                    view = TableInfo t) /\
         (fetchTableInfo env (table_id r) = None ->
            view = Placeholder (table_id r) "Table details unavailable")) /\
    (forall tableId,
       fetch env tableId = FetchThrows \/
       (exists body, fetch env tableId = FetchResponse false body) \/
       fetch env tableId = FetchResponse true None \/
       fetch env tableId = FetchResponse true (Some None) ->
       fetchTableInfo env tableId = None).
Proof.
  intros env k db. split; [| split].
  - intros Hnone. unfold_handler. now rewrite Hnone.
  - intros r Hfind. unfold_handler. rewrite Hfind.
    destruct (fetchTableInfo env (table_id r)) as [t |] eqn:Ht.
    + exists (TableInfo t).
      split; [reflexivity |]. split; [reflexivity |].
      split; [intros t' Ht'; congruence | discriminate].
    + exists (Placeholder (table_id r) "Table details unavailable").
      split; [reflexivity |]. split; [reflexivity |].
      split; [discriminate | reflexivity].
  - intros tableId H. unfold fetchTableInfo.
    destruct H as [-> | [[body ->] | [-> | ->]]]; reflexivity.
Qed.

(** ** The date rule of the create schema *)

Lemma date_rule_rejects (env : Env) (b : CreateBody) (d : Z) :
  b_reservation_date b = Some d -> d < now env ->
  exists errors,
    createReservationSchema env b = inl errors /\
    In (F_reservation_date, date_min) errors.
Proof.
  intros Hd Hlt.
  assert (Hin : In (F_reservation_date, date_min) (create_issues env b)).
  { unfold create_issues. rewrite Hd.
    do 5 (apply in_or_app; right). apply in_or_app. left.
    simpl. replace (now env <=? d) with false
      by (symmetry; apply Z.leb_gt; exact Hlt).
    simpl. auto. }
  unfold createReservationSchema.
  destruct (create_issues env b) as [| i l]; [destruct Hin |].
  exists (i :: l). auto.
Qed.

(** The date rule refuses the current day at any time but midnight UTC:
    the date-only text denotes midnight UTC, which is before now. *)
Lemma date_rule_rejects_today (env : Env) (b : CreateBody) :
  tz_offset env = 0 ->
  (now env) mod MS_PER_DAY <> 0 ->
  b_reservation_date b = Some (iso_date (today env)) ->
  exists errors,
    createReservationSchema env b = inl errors /\
    In (F_reservation_date, date_min) errors.
Proof.
  intros Htz Hmod Hd. apply date_rule_rejects with (d := iso_date (today env));
    [exact Hd |].
  unfold iso_date, today. rewrite Htz, Z.add_0_r.
  assert (Hpos : 0 < MS_PER_DAY) by reflexivity.
  pose proof (Z.div_mod (now env) MS_PER_DAY ltac:(lia)) as Hdm.
  pose proof (Z.mod_pos_bound (now env) MS_PER_DAY Hpos) as Hb.
  lia.
Qed.

(** The date rule lets every later day through, and no earlier day. *)
Lemma date_rule_other_days (env : Env) (day : Z) :
  tz_offset env = 0 ->
  (today env < day ->
     rule F_reservation_date date_min (now env <=? iso_date day) = []) /\
  (day < today env ->
     rule F_reservation_date date_min (now env <=? iso_date day)
       = [(F_reservation_date, date_min)]).
Proof.
  intros Htz. unfold iso_date, today. rewrite Htz, Z.add_0_r.
  assert (Hpos : 0 < MS_PER_DAY) by reflexivity.
  pose proof (Z.div_mod (now env) MS_PER_DAY ltac:(lia)) as Hdm.
  pose proof (Z.mod_pos_bound (now env) MS_PER_DAY Hpos) as Hb.
  split; intros Hday.
  - replace (now env <=? day * MS_PER_DAY) with true; [reflexivity |].
    symmetry. apply Z.leb_le. nia.
  - replace (now env <=? day * MS_PER_DAY) with false; [reflexivity |].
    symmetry. apply Z.leb_gt. nia.
Qed.

(** C9 (what the code does). At noon of 2026-11-02 a create request for
    2026-11-02, valid in every other field, is answered 400 by the date
    rule, with the message that the date must be today or in the future. *)
Theorem today_is_rejected :
  today noon_env = 20759 /\
  exists errors,
    handle noon_env (POST_reservations (body_for 20759))
      empty_store = (ValidationFailed errors, empty_store) /\
    status_code (ValidationFailed errors) = 400 /\
    In (F_reservation_date, date_min) errors /\
    custom_message (F_reservation_date, date_min)
      = Some "Reservation date must be today or in the future".
Proof.
  split; [reflexivity |].
  destruct (date_rule_rejects_today noon_env (body_for 20759))
    as (errors & Herr & Hin); try reflexivity.
  { vm_compute. discriminate. }
  exists errors. rewrite router_post_unfold, Herr. auto.
Qed.

(** ** Listing *)

Lemma string_leb_iff (a b : string) :
  String.leb a b = true <-> a = b \/ OrderedTypeEx.String_as_OT.lt a b.
Proof.
  unfold String.leb.
  pose proof (OrderedTypeEx.String_as_OT.cmp_eq a b) as Heq.
  pose proof (OrderedTypeEx.String_as_OT.cmp_lt a b) as Hlt.
  unfold OrderedTypeEx.String_as_OT.cmp in *.
  destruct (String.compare a b).
  - split; [intros _ | reflexivity]. left. now apply Heq.
  - split; [intros _ | reflexivity]. right. now apply Hlt.
  - split; [discriminate |].
    intros [H | H]; [apply Heq in H | apply Hlt in H]; discriminate.
Qed.

Lemma string_leb_trans (a b c : string) :
  String.leb a b = true -> String.leb b c = true -> String.leb a c = true.
Proof.
  rewrite !string_leb_iff. intros [-> | Hab] [-> | Hbc]; auto.
  right. eapply OrderedTypeEx.String_as_OT.lt_trans; eassumption.
Qed.

Lemma order_leb_iff (a b : Reservation) :
  ReservationOrder.leb a b = true <-> date_then_start a b.
Proof.
  unfold ReservationOrder.leb, date_then_start.
  rewrite orb_true_iff, andb_true_iff, Z.ltb_lt, Z.eqb_eq. tauto.
Qed.

Lemma date_then_start_trans (a b c : Reservation) :
  date_then_start a b -> date_then_start b c -> date_then_start a c.
Proof.
  unfold date_then_start.
  intros [Hab | [Hab Sab]] [Hbc | [Hbc Sbc]]; try (left; lia).
  right. split; [lia |]. eapply string_leb_trans; eassumption.
Qed.

Lemma insert_row_perm (r : Reservation) (l : list Reservation) :
  Permutation (r :: l) (insert_row r l).
Proof.
  induction l as [| x l IH]; simpl; [reflexivity |].
  destruct (ReservationOrder.leb r x); [reflexivity |].
  etransitivity; [apply perm_swap |]. now apply perm_skip.
Qed.

Lemma order_rows_perm (l : list Reservation) :
  Permutation l (order_rows l).
Proof.
  induction l as [| x l IH]; simpl; [constructor |].
  etransitivity; [apply perm_skip; exact IH | apply insert_row_perm].
Qed.

Lemma insert_row_sorted (r : Reservation) (l : list Reservation) :
  StronglySorted date_then_start l ->
  StronglySorted date_then_start (insert_row r l).
Proof.
  intros Hs. induction Hs as [| x l Hs IH Hall]; simpl.
  - constructor; constructor.
  - destruct (ReservationOrder.leb r x) eqn:E.
    + apply order_leb_iff in E.
      constructor; [constructor; assumption |].
      constructor; [exact E |].
      eapply Forall_impl; [| exact Hall].
      intros b Hb. eapply date_then_start_trans; eassumption.
    + assert (Hxr : date_then_start x r).
      { destruct (ReservationOrder.leb_total r x) as [H | H];
          [congruence | now apply order_leb_iff]. }
      constructor; [exact IH |].
      rewrite Forall_forall in *. intros b Hb.
      apply (Permutation_in _ (Permutation_sym (insert_row_perm r l)))
        in Hb.
      destruct Hb as [<- | Hb]; auto.
Qed.

Lemma sort_strongly_sorted (l : list Reservation) :
  StronglySorted date_then_start (order_rows l).
Proof.
  induction l as [| x l IH]; simpl; [constructor |].
  now apply insert_row_sorted.
Qed.

Lemma same_key_leb (a x r : Reservation) :
  same_key a x = true -> same_key a r = true ->
  ReservationOrder.leb r x = true.
Proof.
  unfold same_key, ReservationOrder.leb.
  rewrite !andb_true_iff, !Z.eqb_eq, !String.eqb_eq.
  intros [Hd Hs] [Hd' Hs'].
  rewrite <- Hd, <- Hd', <- Hs, <- Hs', Z.eqb_refl, orb_true_iff.
  right. cbn [andb].
  destruct (String.leb_total (slot_start_time a) (slot_start_time a));
    assumption.
Qed.

Lemma insert_row_filter (a r : Reservation) (l : list Reservation) :
  filter (same_key a) (insert_row r l) = filter (same_key a) (r :: l).
Proof.
  induction l as [| x l IH]; [reflexivity |].
  cbn [insert_row]. destruct (ReservationOrder.leb r x) eqn:E;
    [reflexivity |].
  cbn [filter] in *. rewrite IH.
  destruct (same_key a x) eqn:Hx; destruct (same_key a r) eqn:Hr;
    try reflexivity.
  rewrite (same_key_leb a x r Hx Hr) in E. discriminate.
Qed.

(** Rows with the same date and start time keep the order of the table. *)
Lemma order_rows_stable (a : Reservation) (l : list Reservation) :
  filter (same_key a) (order_rows l) = filter (same_key a) l.
Proof.
  induction l as [| x l IH]; [reflexivity |].
  cbn [order_rows fold_right]. fold (order_rows l).
  rewrite insert_row_filter. cbn [filter]. now rewrite IH.
Qed.

Lemma times_table_ordered :
  forallb (fun a =>
    forallb (fun b =>
      Bool.eqb (String.leb (snd a) (snd b)) (fst a <=? fst b)%N)
      times_table) times_table = true.
Proof. vm_cast_no_check (eq_refl true). Qed.

Lemma In_times_table (h m : N) :
  (h <= 23)%N -> (m <= 59)%N ->
  In ((h * 60 + m)%N, hhmm h m) times_table.
Proof.
  intros Hh Hm. unfold times_table. apply in_flat_map.
  exists h. split; [apply In_upto; lia |].
  apply in_map_iff. exists m. split; [reflexivity | apply In_upto; lia].
Qed.

(** On ['HH:MM'] texts the order of the texts is the order of the times. *)
Lemma hhmm_leb (h m h' m' : N) :
  (h <= 23)%N -> (m <= 59)%N -> (h' <= 23)%N -> (m' <= 59)%N ->
  String.leb (hhmm h m) (hhmm h' m') = (h * 60 + m <=? h' * 60 + m')%N.
Proof.
  intros Hh Hm Hh' Hm'.
  pose proof times_table_ordered as T.
  rewrite forallb_forall in T.
  specialize (T _ (In_times_table h m Hh Hm)).
  rewrite forallb_forall in T.
  specialize (T _ (In_times_table h' m' Hh' Hm')).
  cbn [fst snd] in T. apply Bool.eqb_prop in T. exact T.
Qed.

Lemma date_then_start_chronological (a b : Reservation) :
  row_ok a -> row_ok b -> date_then_start a b -> chronological a b.
Proof.
  intros (Ha & _) (Hb & _) [Hlt | [Heq Hleb]]; [left; exact Hlt |].
  right. split; [exact Heq |].
  destruct (pattern_parts _ Ha) as (h & m & Hh & Hm & Hsa & _).
  destruct (pattern_parts _ Hb) as (h' & m' & Hh' & Hm' & Hsb & _).
  exists h, m, h', m'. repeat split; auto.
  rewrite Hsa, Hsb, hhmm_leb in Hleb by assumption.
  now apply N.leb_le.
Qed.

Lemma strongly_sorted_chronological (l : list Reservation) :
  Forall row_ok l -> StronglySorted date_then_start l ->
  StronglySorted chronological l.
Proof.
  intros Hok Hs. induction Hs as [| a l Hs IH Hall]; constructor.
  - apply IH. now inversion Hok.
  - inversion Hok as [| ? ? Ha Hl]; subst.
    rewrite Forall_forall in *. intros b Hb.
    apply date_then_start_chronological; auto.
Qed.

Lemma ceil_div_spec (count limit : Z) :
  0 < limit ->
  (ceil_div count limit - 1) * limit < count <= ceil_div count limit * limit.
Proof.
  intros Hpos. destruct limit as [| p | p]; try lia.
  unfold ceil_div, Qceiling, Qfloor, Qdiv, Qinv, Qmult, Qopp, inject_Z.
  simpl Qnum. simpl Qden. cbv iota beta.
  rewrite Z.mul_1_r.
  pose proof (Z.div_mod (- count) (Z.pos p) ltac:(lia)) as Hdm.
  pose proof (Z.mod_pos_bound (- count) (Z.pos p) ltac:(lia)) as Hb.
  nia.
Qed.

Lemma app_nil_iff {A : Type} (l l' : list A) :
  (l ++ l')%list = [] <-> l = [] /\ l' = [].
Proof.
  split; [apply app_eq_nil |]. intros [-> ->]. reflexivity.
Qed.

Lemma rule_nil_iff (f : Field) (r : Rule) (ok : bool) :
  rule f r ok = [] <-> ok = true.
Proof. destruct ok; simpl; split; auto; discriminate. Qed.

Lemma optional_nil_iff {A : Type} (v : option A) (check : A -> list Issue) :
  optional v check = [] <-> forall a, v = Some a -> check a = [].
Proof.
  destruct v as [a |]; simpl; split; auto.
  - intros H b Hb. injection Hb as <-. exact H.
  - discriminate.
Qed.

Lemma max_safe_ge_50 : 50 <= MAX_SAFE_INTEGER.
Proof. apply Z.leb_le. reflexivity. Qed.

Lemma number_rules_nil_iff (f : Field) (z : Z) (rest : list Issue) :
  number_rules f z rest = [] <-> safe_integer z = true /\ rest = [].
Proof.
  unfold number_rules. destruct (safe_integer z); split; intros H;
    try tauto; try discriminate.
  destruct H as [H _]. discriminate.
Qed.

Lemma safe_integer_iff (z : Z) :
  safe_integer z = true <-> - MAX_SAFE_INTEGER <= z <= MAX_SAFE_INTEGER.
Proof.
  unfold safe_integer. rewrite andb_true_iff, !Z.leb_le. tauto.
Qed.

Lemma query_issues_nil_iff (q : ListQuery) :
  query_issues q = [] <-> query_valid q.
Proof.
  pose proof max_safe_ge_50 as Hmax.
  unfold query_issues, query_valid.
  rewrite !app_nil_iff, !optional_nil_iff.
  assert (Ht : forall t,
            number_rules F_table_id t
              (rule F_table_id number_positive (0 <? t)) = [] <->
            0 < t <= MAX_SAFE_INTEGER).
  { intros t. rewrite number_rules_nil_iff, rule_nil_iff, safe_integer_iff,
      Z.ltb_lt. lia. }
  assert (Hs : forall s,
            rule F_status any_only
              (String.eqb s "confirmed" || String.eqb s "cancelled") = [] <->
            s = "confirmed" \/ s = "cancelled").
  { intros s. rewrite rule_nil_iff, orb_true_iff, !String.eqb_eq. tauto. }
  assert (Hp : forall p,
            number_rules F_page p (rule F_page number_min (1 <=? p)) = [] <->
            1 <= p <= MAX_SAFE_INTEGER).
  { intros p. rewrite number_rules_nil_iff, rule_nil_iff, safe_integer_iff,
      Z.leb_le. lia. }
  assert (Hl : forall l,
            number_rules F_limit l
              (rule F_limit number_min (1 <=? l) ++
               rule F_limit number_max (l <=? 50))%list = [] <->
            1 <= l <= 50).
  { intros l. rewrite number_rules_nil_iff, app_nil_iff, !rule_nil_iff,
      safe_integer_iff, !Z.leb_le. lia. }
  split.
  - intros (H1 & H2 & H3 & H4). repeat split.
    + now apply Ht, H1.
    + now apply Ht, H1.
    + intros s Hq. now apply Hs, H2.
    + now apply Hp, H3.
    + now apply Hp, H3.
    + now apply Hl, H4.
    + now apply Hl, H4.
  - intros (H1 & H2 & H3 & H4). repeat split.
    + intros t Hq. apply Ht. now apply H1.
    + intros s Hq. apply Hs. now apply H2.
    + intros p' Hq. apply Hp. now apply H3.
    + intros l Hq. apply Hl. now apply H4.
Qed.

Lemma query_valid_bounds (q : ListQuery) :
  query_valid q ->
  1 <= default 1 (q_page q) <= MAX_SAFE_INTEGER /\
  1 <= default 20 (q_limit q) <= 50.
Proof.
  pose proof max_safe_ge_50 as Hmax.
  intros (_ & _ & Hp & Hl).
  destruct (q_page q) as [p |]; destruct (q_limit q) as [l |];
    cbn [default]; split; try lia; auto.
Qed.

Lemma matches_filters_iff (q : ListQuery) (r : Reservation) :
  matches_filters q r = true <-> passes_filters q r.
Proof.
  unfold matches_filters, passes_filters.
  rewrite !andb_true_iff.
  destruct (q_date q) as [d |]; destruct (q_table_id q) as [t |];
    destruct (q_status q) as [s |];
    rewrite ?Z.eqb_eq, ?String.eqb_eq;
    (split;
     [ intros [[H1 H2] H3]; repeat split; intros x Hx;
       try discriminate; injection Hx as <-; assumption
     | intros (H1 & H2 & H3); repeat split; auto ]).
Qed.

Lemma where_matches_filters (q : ListQuery) (r : Reservation) :
  query_valid q ->
  where_matches
    (mkWhere (truthy_number (q_table_id q))
       (option_map dateonly (q_date q)) None (truthy_string (q_status q))) r
  = matches_filters q r.
Proof.
  intros (Ht & Hs & _ & _).
  assert (Ht' : truthy_number (q_table_id q) = q_table_id q).
  { destruct (q_table_id q) as [t |]; [| reflexivity]. simpl.
    specialize (Ht t eq_refl).
    destruct (t =? 0) eqn:E; [apply Z.eqb_eq in E; lia | reflexivity]. }
  assert (Hs' : truthy_string (q_status q) = q_status q).
  { destruct (q_status q) as [s |]; [| reflexivity]. simpl.
    destruct (Hs s eq_refl) as [-> | ->]; reflexivity. }
  unfold where_matches, matches_filters, fixed.
  cbn [w_table_id w_reservation_date w_slot_start_time w_status].
  rewrite Ht', Hs'.
  destruct (q_date q) as [d |]; destruct (q_table_id q) as [t |];
    destruct (q_status q) as [s |]; cbn [option_map]; btauto.
Qed.


(** ** More on the slot calculator *)

Lemma hhmm_inj (h m h' m' : N) :
  (h <= 23)%N -> (m <= 59)%N -> (h' <= 23)%N -> (m' <= 59)%N ->
  hhmm h m = hhmm h' m' -> h = h' /\ m = m'.
Proof.
  intros Hh Hm Hh' Hm' Heq.
  assert (H1 : String.leb (hhmm h m) (hhmm h' m') = true).
  { rewrite Heq. rewrite hhmm_leb by assumption. apply N.leb_le. lia. }
  assert (H2 : String.leb (hhmm h' m') (hhmm h m) = true).
  { rewrite Heq. rewrite hhmm_leb by assumption. apply N.leb_le. lia. }
  rewrite hhmm_leb in H1, H2 by assumption.
  apply N.leb_le in H1. apply N.leb_le in H2. lia.
Qed.

Lemma add2_mod24_cases (h : N) :
  (h <= 23)%N ->
  ((h < 22 /\ (h + 2) mod 24 = h + 2) \/
   (22 <= h /\ (h + 2) mod 24 = h - 22))%N.
Proof.
  intros Hh. destruct (N.ltb_spec h 22) as [Hlt | Hge].
  - left. split; [exact Hlt |]. apply N.mod_small. lia.
  - right. split; [exact Hge |].
    symmetry. apply (N.mod_unique (h + 2) 24 1); lia.
Qed.

(** X1. On the start times the schema accepts, [calculateEndTime] gives a
    text of the same ['HH:MM'] shape, never the start time itself, and
    different start times have different end times. *)
Theorem calculateEndTime_valid_injective :
  forall s,
    slot_start_time_pattern s = true ->
    slot_start_time_pattern (calculateEndTime s) = true /\
    calculateEndTime s <> s /\
    (forall s', slot_start_time_pattern s' = true ->
                calculateEndTime s = calculateEndTime s' -> s = s').
Proof.
  intros s Hs.
  destruct (pattern_parts s Hs) as (h & m & Hh & Hm & -> & _ & He).
  assert (Hh2 : ((h + 2) mod 24 <= 23)%N).
  { destruct (add2_mod24_cases h Hh) as [[? ->] | [? ->]]; lia. }
  rewrite He. split; [| split].
  - apply calculateEndTime_hhmm; assumption.
  - intros Heq. apply hhmm_inj in Heq; try assumption.
    destruct (add2_mod24_cases h Hh) as [[? E] | [? E]];
      rewrite E in Heq; lia.
  - intros s' Hs' Heq.
    destruct (pattern_parts s' Hs') as (h' & m' & Hh' & Hm' & -> & _ & He').
    rewrite He' in Heq.
    assert (Hh2' : ((h' + 2) mod 24 <= 23)%N).
    { destruct (add2_mod24_cases h' Hh') as [[? ->] | [? ->]]; lia. }
    apply hhmm_inj in Heq; try assumption.
    destruct Heq as [Hmod <-].
    destruct (add2_mod24_cases h Hh) as [[? E] | [? E]];
      destruct (add2_mod24_cases h' Hh') as [[? E'] | [? E']];
      rewrite E, E' in Hmod; f_equal; lia.
Qed.

(** X2. The end time of a slot is not later in the day than its start
    exactly when the slot starts at 22:00 or later: such a slot ends on the
    next day, and its stored end time sorts before its start time. *)
Theorem calculateEndTime_next_day :
  forall h m,
    (h <= 23)%N -> (m <= 59)%N ->
    exists h',
      calculateEndTime (hhmm h m) = hhmm h' m /\ (h' <= 23)%N /\
      (minute_of_day h' m <=? minute_of_day h m)%N = (22 <=? h)%N /\
      String.leb (calculateEndTime (hhmm h m)) (hhmm h m) = (22 <=? h)%N.
Proof.
  intros h m Hh Hm. exists ((h + 2) mod 24)%N.
  destruct (calculateEndTime_hhmm h m Hh Hm) as [_ He].
  assert (Hmin : (minute_of_day ((h + 2) mod 24) m <=? minute_of_day h m)%N
                 = (22 <=? h)%N).
  { unfold minute_of_day.
    destruct (add2_mod24_cases h Hh) as [[Hlt ->] | [Hge ->]].
    - replace (22 <=? h)%N with false by (symmetry; apply N.leb_gt; lia).
      apply N.leb_gt. lia.
    - replace (22 <=? h)%N with true by (symmetry; apply N.leb_le; lia).
      apply N.leb_le. lia. }
  assert (Hh2 : ((h + 2) mod 24 <= 23)%N).
  { destruct (add2_mod24_cases h Hh) as [[? ->] | [? ->]]; lia. }
  split; [exact He |]. split; [exact Hh2 |]. split; [exact Hmin |].
  rewrite He, hhmm_leb by assumption. exact Hmin.
Qed.

(** ** More on the schemas *)

Lemma len_nonempty (s : string) : s <> "" -> 1 <= len s.
Proof.
  destruct s as [| a s]; [congruence |]. intros _.
  unfold len. cbn [String.length]. lia.
Qed.

Lemma issues_table_id (env : Env) (b : CreateBody) :
  map fst (required F_table_id (b_table_id b) (fun t =>
             number_rules F_table_id t
               (rule F_table_id number_positive (0 <? t))))
  = if field_ok env b F_table_id then [] else [F_table_id].
Proof.
  pose proof max_safe_ge_50 as Hmax.
  unfold field_ok, required, number_rules, safe_integer, rule.
  destruct (b_table_id b) as [t |]; [| reflexivity].
  destruct (Z.leb_spec (- MAX_SAFE_INTEGER) t);
    destruct (Z.leb_spec t MAX_SAFE_INTEGER);
    destruct (Z.ltb_spec 0 t); try reflexivity; lia.
Qed.

Lemma issues_customer_name (env : Env) (b : CreateBody) :
  map fst (required F_customer_name (b_customer_name b) (fun s =>
             string_rules F_customer_name s
               (rule F_customer_name string_min (1 <=? len s) ++
                rule F_customer_name string_max (len s <=? 100))%list))
  = if field_ok env b F_customer_name then [] else [F_customer_name].
Proof.
  unfold field_ok, required, string_rules, rule.
  destruct (b_customer_name b) as [s |]; [| reflexivity].
  destruct (String.eqb_spec s "") as [-> | Hne]; [reflexivity |].
  apply len_nonempty in Hne.
  replace (1 <=? len s) with true by (symmetry; apply Z.leb_le; exact Hne).
  destruct (len s <=? 100); reflexivity.
Qed.

Lemma issues_customer_email (env : Env) (b : CreateBody) :
  map fst (required F_customer_email (b_customer_email b) (fun s =>
             string_rules F_customer_email s
               (rule F_customer_email string_email (is_email s))))
  = if field_ok env b F_customer_email then [] else [F_customer_email].
Proof.
  unfold field_ok, required, string_rules, rule.
  destruct (b_customer_email b) as [s |]; [| reflexivity].
  destruct (String.eqb s ""); [reflexivity |].
  destruct (is_email s); reflexivity.
Qed.

Lemma issues_customer_phone (env : Env) (b : CreateBody) :
  map fst (required F_customer_phone (b_customer_phone b) (fun s =>
             string_rules F_customer_phone s
               (rule F_customer_phone string_min (7 <=? len s) ++
                rule F_customer_phone string_max (len s <=? 20))%list))
  = if field_ok env b F_customer_phone then [] else [F_customer_phone].
Proof.
  unfold field_ok, required, string_rules, rule.
  destruct (b_customer_phone b) as [s |]; [| reflexivity].
  destruct (String.eqb_spec s "") as [-> | Hne]; [reflexivity |].
  destruct (Z.leb_spec 7 (len s)); destruct (Z.leb_spec (len s) 20);
    try reflexivity; lia.
Qed.

Lemma issues_guest_count (env : Env) (b : CreateBody) :
  map fst (required F_guest_count (b_guest_count b) (fun g =>
             number_rules F_guest_count g
               (rule F_guest_count number_min (1 <=? g) ++
                rule F_guest_count number_max (g <=? 20))%list))
  = if field_ok env b F_guest_count then [] else [F_guest_count].
Proof.
  pose proof max_safe_ge_50 as Hmax.
  unfold field_ok, required, number_rules, safe_integer, rule.
  destruct (b_guest_count b) as [g |]; [| reflexivity].
  destruct (Z.leb_spec (- MAX_SAFE_INTEGER) g);
    destruct (Z.leb_spec g MAX_SAFE_INTEGER);
    destruct (Z.leb_spec 1 g); destruct (Z.leb_spec g 20);
    try reflexivity; lia.
Qed.

Lemma issues_reservation_date (env : Env) (b : CreateBody) :
  map fst (required F_reservation_date (b_reservation_date b) (fun d =>
             rule F_reservation_date date_min (now env <=? d)))
  = if field_ok env b F_reservation_date then [] else [F_reservation_date].
Proof.
  unfold field_ok, required, rule.
  destruct (b_reservation_date b) as [d |]; [| reflexivity].
  destruct (now env <=? d); reflexivity.
Qed.

Lemma issues_slot_start_time (env : Env) (b : CreateBody) :
  map fst (required F_slot_start_time (b_slot_start_time b) (fun s =>
             string_rules F_slot_start_time s
               (rule F_slot_start_time string_pattern_base
                  (slot_start_time_pattern s))))
  = if field_ok env b F_slot_start_time then [] else [F_slot_start_time].
Proof.
  unfold field_ok, required, string_rules, rule.
  destruct (b_slot_start_time b) as [s |]; [| reflexivity].
  destruct (String.eqb_spec s "") as [-> | Hne]; [reflexivity |].
  destruct (slot_start_time_pattern s); reflexivity.
Qed.

Lemma issues_special_requests (env : Env) (b : CreateBody) :
  map fst (optional (b_special_requests b) (fun s =>
             if String.eqb s "" then []
             else rule F_special_requests string_max (len s <=? 500)))
  = if field_ok env b F_special_requests then [] else [F_special_requests].
Proof.
  unfold field_ok, optional, rule.
  destruct (b_special_requests b) as [s |]; [| reflexivity].
  destruct (String.eqb_spec s "") as [-> | Hne]; [reflexivity |].
  destruct (len s <=? 500); reflexivity.
Qed.

(** The issues of a body name its failing keys, each once, in key order. *)
Lemma create_issues_fields (env : Env) (b : CreateBody) :
  map fst (create_issues env b)
  = filter (fun f => negb (field_ok env b f)) create_fields.
Proof.
  unfold create_issues. rewrite !map_app.
  pose proof (issues_table_id env b) as H1.
  pose proof (issues_customer_name env b) as H2.
  pose proof (issues_customer_email env b) as H3.
  pose proof (issues_customer_phone env b) as H4.
  pose proof (issues_guest_count env b) as H5.
  pose proof (issues_reservation_date env b) as H6.
  pose proof (issues_slot_start_time env b) as H7.
  pose proof (issues_special_requests env b) as H8.
  unfold Issue in *. rewrite H1, H2, H3, H4, H5, H6, H7, H8.
  unfold create_fields. cbn [filter].
  generalize (field_ok env b F_table_id) (field_ok env b F_customer_name)
    (field_ok env b F_customer_email) (field_ok env b F_customer_phone)
    (field_ok env b F_guest_count) (field_ok env b F_reservation_date)
    (field_ok env b F_slot_start_time) (field_ok env b F_special_requests).
  intros [] [] [] [] [] [] [] []; reflexivity.
Qed.

Lemma create_issues_nil_iff (env : Env) (b : CreateBody) :
  create_issues env b = [] <->
  forallb (field_ok env b) create_fields = true.
Proof.
  assert (H : create_issues env b = [] <->
              filter (fun f => negb (field_ok env b f)) create_fields = []).
  { rewrite <- create_issues_fields.
    destruct (create_issues env b); simpl; split; congruence. }
  rewrite H. unfold create_fields. cbn [filter forallb].
  generalize (field_ok env b F_table_id) (field_ok env b F_customer_name)
    (field_ok env b F_customer_email) (field_ok env b F_customer_phone)
    (field_ok env b F_guest_count) (field_ok env b F_reservation_date)
    (field_ok env b F_slot_start_time) (field_ok env b F_special_requests).
  intros [] [] [] [] [] [] [] []; simpl; split; congruence.
Qed.

Lemma createReservationSchema_inl (env : Env) (b : CreateBody) :
  create_issues env b <> [] ->
  createReservationSchema env b = inl (create_issues env b).
Proof.
  intros Hne. unfold createReservationSchema.
  destruct (create_issues env b); [contradiction | reflexivity].
Qed.

Lemma createReservationSchema_inr (env : Env) (b : CreateBody) :
  create_issues env b = [] ->
  exists v, createReservationSchema env b = inr v /\ b = body_of_value v.
Proof.
  intros Hnil. pose proof Hnil as Hok.
  apply create_issues_nil_iff in Hok.
  unfold createReservationSchema. rewrite Hnil.
  unfold create_fields in Hok. cbn [forallb] in Hok.
  rewrite !andb_true_iff in Hok.
  destruct Hok as (H1 & H2 & H3 & H4 & H5 & H6 & H7 & _).
  unfold field_ok in H1, H2, H3, H4, H5, H6, H7.
  destruct b as [[t |] [n |] [e |] [p |] [g |] [d |] [s |] sr];
    cbn in *; try discriminate.
  eexists. split; reflexivity.
Qed.

Lemma createReservationSchema_cases (env : Env) (b : CreateBody) :
  (create_issues env b = [] /\
   exists v, createReservationSchema env b = inr v /\ b = body_of_value v)
  \/
  (create_issues env b <> [] /\
   createReservationSchema env b = inl (create_issues env b)).
Proof.
  destruct (create_issues env b) as [| i l] eqn:Hi.
  - left. split; [reflexivity |]. now apply createReservationSchema_inr.
  - right. split; [discriminate |].
    rewrite <- Hi. apply createReservationSchema_inl. rewrite Hi.
    discriminate.
Qed.

(** X3. The create schema accepts a body exactly when every key is within
    its rule: table_id positive and a safe integer (at most 2^53-1),
    customer_name of 1 to 100 characters,
    customer_email not empty and an e-mail address, customer_phone of 7 to
    20 characters, guest_count from 1 to 20, reservation_date not before
    now, slot_start_time of the ['HH:MM'] pattern, special_requests absent
    or of at most 500 characters. The validated value then carries the
    keys of the body unchanged. *)
Theorem create_validation_accepts :
  forall env b,
    (forallb (field_ok env b) create_fields = true <->
     exists v, createReservationSchema env b = inr v) /\
    (forall v, createReservationSchema env b = inr v -> b = body_of_value v).
Proof.
  intros env b.
  destruct (createReservationSchema_cases env b)
    as [(Hnil & v & Hv & Hb) | (Hne & Hinl)].
  - split.
    + split; [intros _; exists v; exact Hv |].
      intros _. now apply create_issues_nil_iff.
    + intros v' Hv'. rewrite Hv in Hv'. injection Hv' as <-. exact Hb.
  - split.
    + split.
      * intros Hok. apply create_issues_nil_iff in Hok. contradiction.
      * intros (v & Hv). rewrite Hinl in Hv. discriminate.
    + intros v Hv. rewrite Hinl in Hv. discriminate.
Qed.

(** X4. A create request whose body fails validation is answered 400 with
    one message for every failing key, in the order of the schema's keys
    (validation does not stop at the first failure), and writes nothing. *)
Theorem create_validation_reports_all :
  forall env b errors db,
    createReservationSchema env b = inl errors ->
    errors <> [] /\
    map fst errors = filter (fun f => negb (field_ok env b f)) create_fields /\
    handle env (POST_reservations b) db = (ValidationFailed errors, db).
Proof.
  intros env b errors db Herr.
  destruct (createReservationSchema_cases env b)
    as [(Hnil & v & Hv & Hb) | (Hne & Hinl)].
  - rewrite Hv in Herr. discriminate.
  - rewrite Hinl in Herr. injection Herr as <-.
    split; [exact Hne |]. split; [apply create_issues_fields |].
    rewrite router_post_unfold, Hinl. reflexivity.
Qed.

(** X5. Validation comes before the table lookup: a body that fails
    validation gets the same 400 answer whatever the Table Service would
    say, and a guest_count above 20 is refused by validation whatever the
    capacity of the table (under the maximum rule, or, beyond the safe
    integers, under the rule for unsafe numbers). *)
Theorem validation_before_lookup :
  forall env b db,
    (forall errors fetch',
       createReservationSchema env b = inl errors ->
       handle (mkEnv (now env) (tz_offset env) fetch')
         (POST_reservations b) db = (ValidationFailed errors, db)) /\
    (forall g, b_guest_count b = Some g -> 20 < g ->
       exists errors,
         handle env (POST_reservations b) db = (ValidationFailed errors, db) /\
         In (F_guest_count,
             if g <=? MAX_SAFE_INTEGER then number_max else number_unsafe)
           errors).
Proof.
  intros env b db. split.
  - intros errors fetch' Herr.
    rewrite router_post_unfold.
    change (createReservationSchema
              (mkEnv (now env) (tz_offset env) fetch') b)
      with (createReservationSchema env b).
    rewrite Herr. reflexivity.
  - intros g Hg Hbig.
    assert (Hin : In (F_guest_count,
                      if g <=? MAX_SAFE_INTEGER
                      then number_max else number_unsafe)
                    (create_issues env b)).
    { unfold create_issues. rewrite Hg.
      do 4 (apply in_or_app; right). apply in_or_app. left.
      cbn [required]. unfold number_rules, safe_integer.
      replace (- MAX_SAFE_INTEGER <=? g) with true
        by (symmetry; apply Z.leb_le; pose proof max_safe_ge_50; lia).
      cbn [andb]. destruct (g <=? MAX_SAFE_INTEGER); [| simpl; auto].
      apply in_or_app. right.
      replace (g <=? 20) with false by (symmetry; apply Z.leb_gt; exact Hbig).
      simpl. auto. }
    exists (create_issues env b). split; [| exact Hin].
    rewrite router_post_unfold, createReservationSchema_inl; [reflexivity |].
    intros Hnil. rewrite Hnil in Hin. destruct Hin.
Qed.

Lemma query_valid_iff (q : ListQuery) :
  query_valid q <-> query_issues q = [].
Proof. symmetry. apply query_issues_nil_iff. Qed.

(** X6. A list request is answered 200 exactly when its filters and paging
    are within the schema (table_id from 1 to 2^53-1, status 'confirmed'
    or 'cancelled', page from 1 to 2^53-1, limit from 1 to 50, each only
    when given; 2^53-1 is the largest safe integer); otherwise it is
    answered 400 with one message, that of the first failing key. *)
Theorem list_validation :
  forall env q db,
    let resp := fst (handle env (GET_reservations q) db) in
    (query_valid q <-> status_code resp = 200) /\
    (~ query_valid q ->
     exists i rest,
       query_issues q = i :: rest /\ resp = ValidationFailed [i] /\
       status_code resp = 400).
Proof.
  intros env q db resp. subst resp. unfold_handler.
  unfold queryReservationsSchema. rewrite query_valid_iff.
  destruct (query_issues q) as [| i rest]; simpl.
  - split; [split; reflexivity |]. intros H. now contradiction H.
  - split; [split; [discriminate | intros H; lia] |].
    intros _. exists i, rest. auto.
Qed.

(** ** More on what requests do to the store *)

Lemma router_patch_cancelled (env : Env) (k : Z) (db db' : Store)
    (r' : Reservation) :
  handle env (PATCH_cancel k) db = (Cancelled r', db') ->
  exists r,
    find (fun x => id x =? k) (rows db) = Some r /\
    String.eqb (status r) "cancelled" = false /\
    r' = cancelled_row env r /\
    db' = mkStore (map (replace_row r r') (rows db)) (next_id db).
Proof.
  rewrite router_patch_cancel_unfold.
  destruct (find (fun x => id x =? k) (rows db)) as [r |]; [| discriminate].
  destruct (String.eqb (status r) "cancelled") eqn:Hs; [discriminate |].
  destruct (less_than_one _); [discriminate |].
  intros H. injection H as <- <-. exists r. auto.
Qed.

Lemma replace_row_other (r saved x : Reservation) :
  id x <> id r -> replace_row r saved x = x.
Proof.
  intros Hne. unfold replace_row.
  destruct (id x =? id r) eqn:E; [| reflexivity].
  apply Z.eqb_eq in E. contradiction.
Qed.

(** X7. A request touches at most the row it names. Every stored row is
    still stored, unchanged, after a request that is not the cancellation
    of that very row; the only rows a request adds or rewrites are the one
    a 201 create answers with and the one a 200 cancel answers with; and
    the list, get and availability routes leave the store as it is,
    whatever they answer. *)
Theorem request_touches_one_row :
  forall env req db,
    let resp := fst (handle env req db) in
    let db' := snd (handle env req db) in
    (forall r, In r (rows db) ->
       (forall k, req = PATCH_cancel k -> id r <> k) ->
       In r (rows db')) /\
    (forall r', In r' (rows db') ->
       In r' (rows db) \/
       (resp = Created r' /\ exists body, req = POST_reservations body) \/
       (resp = Cancelled r' /\ req = PATCH_cancel (id r'))) /\
    ((forall body, req <> POST_reservations body) ->
     (forall k, req <> PATCH_cancel k) -> db' = db).
Proof.
  intros env req db resp db'. subst resp db'.
  destruct req as [body | query | k | k | tableId date].
  - rewrite router_post_unfold.
    destruct (createReservationSchema env body) as [errors | v];
      [cbn [fst snd]; split; [auto | split; auto] |].
    destruct (fetchTableInfo env (v_table_id v)) as [table |];
      [| cbn [fst snd]; split; [auto | split; auto]].
    destruct (negb (is_active table));
      [cbn [fst snd]; split; [auto | split; auto] |].
    destruct (seating_capacity table <? v_guest_count v);
      [cbn [fst snd]; split; [auto | split; auto] |].
    destruct (find _ (rows db));
      [cbn [fst snd]; split; [auto | split; auto] |].
    cbn [fst snd rows]. split; [| split].
    + intros r Hin _. apply in_or_app. now left.
    + intros r' Hin. apply in_app_or in Hin.
      destruct Hin as [Hin | [<- | []]]; [now left |].
      right. left. split; [reflexivity | now exists body].
    + intros Hp. now contradiction (Hp body).
  - unfold_handler. destruct (queryReservationsSchema query);
      cbn [fst snd]; (split; [auto | split; auto]).
  - unfold_handler. destruct (find (fun r => id r =? k) (rows db));
      cbn [fst snd]; (split; [auto | split; auto]).
  - rewrite router_patch_cancel_unfold.
    destruct (find (fun x => id x =? k) (rows db)) as [r0 |] eqn:Hfind;
      [| cbn [fst snd]; split; [auto | split; auto]].
    destruct (String.eqb (status r0) "cancelled");
      [cbn [fst snd]; split; [auto | split; auto] |].
    destruct (less_than_one _);
      [cbn [fst snd]; split; [auto | split; auto] |].
    destruct (find_by_id _ _ _ Hfind) as [Hin0 Hk].
    cbn [fst snd rows]. split; [| split].
    + intros r Hin Hne. apply in_map_iff. exists r. split; [| exact Hin].
      apply replace_row_other. rewrite Hk. exact (Hne k eq_refl).
    + intros r' Hin. apply in_map_iff in Hin.
      destruct Hin as (x & Hx & Hin). unfold replace_row in Hx.
      destruct (id x =? id r0); [| subst; now left].
      subst r'. right. right. split; [reflexivity |].
      simpl. now rewrite Hk.
    + intros _ Hc. now contradiction (Hc k).
  - unfold_handler. destruct date; cbn [fst snd];
      (split; [auto | split; auto]).
Qed.

(** X8. A reservation that was created is found by its key. In a store
    reached by sequential requests the key a 201 create answers with was
    not in use before (a get by it answered 404); right after the create a
    get by it answers 200 with the very row the create answered with; and
    after any further requests it still answers 200 with the same booking
    (every field but status and updated_at as created). *)
Theorem created_is_fetched :
  forall env body db r db',
    reachable db ->
    handle env (POST_reservations body) db = (Created r, db') ->
    (forall env',
       handle env' (GET_reservation (id r)) db
         = (Failure 404 ReservationNotFound, db)) /\
    (forall env', exists view,
       handle env' (GET_reservation (id r)) db' = (Fetched r view, db')) /\
    (forall env' db'', steps db' db'' ->
       exists r'' view,
         handle env' (GET_reservation (id r)) db''
           = (Fetched r'' view, db'') /\
         same_booking r r'').
Proof.
  intros env body db r db' Hreach Hpost.
  apply router_post_created in Hpost. destruct Hpost as (v & Hv & Hr & Hdb').
  destruct (reachable_store_ok _ Hreach) as (_ & Hids & _ & _).
  assert (Hid : id r = next_id db) by (rewrite Hr; reflexivity).
  assert (Hbefore : find (fun x => id x =? id r) (rows db) = None)
    by (rewrite Hid; apply find_fresh; exact Hids).
  assert (Hafter : find (fun x => id x =? id r) (rows db') = Some r).
  { rewrite Hdb'. cbn [rows]. rewrite find_app, Hbefore.
    cbn [find]. now rewrite Z.eqb_refl. }
  split; [| split].
  - intros env'. unfold_handler. now rewrite Hbefore.
  - intros env'. unfold_handler. rewrite Hafter. eexists. reflexivity.
  - intros env' db'' Hsteps.
    destruct (steps_find _ _ _ _ Hsteps Hafter) as (r'' & Hfind & Hsame & _).
    exists r''. unfold_handler. rewrite Hfind. eexists. split; [reflexivity |].
    exact Hsame.
Qed.

(** X9. A cancellation is final. Once a cancel request has answered 200,
    every later cancel request for the same key, after any further
    requests and at any time, is answered 400 AlreadyCancelled and leaves
    the store as it is. *)
Theorem cancel_is_final :
  forall env k db r' db' db'' env2,
    handle env (PATCH_cancel k) db = (Cancelled r', db') ->
    steps db' db'' ->
    handle env2 (PATCH_cancel k) db'' = (Failure 400 AlreadyCancelled, db'').
Proof.
  intros env k db r' db' db'' env2 Hcancel Hsteps.
  apply router_patch_cancelled in Hcancel.
  destruct Hcancel as (r & Hfind & _ & Hr' & Hdb').
  assert (Hafter : find (fun x => id x =? k) (rows db') = Some r').
  { rewrite Hdb'. cbn [rows].
    rewrite find_by_id_replace by (rewrite Hr'; reflexivity).
    rewrite Hfind. cbn [option_map]. unfold replace_row.
    now rewrite Z.eqb_refl. }
  destruct (steps_find _ _ _ _ Hsteps Hafter) as (x & Hx & _ & Hst).
  assert (Hc : status x = "cancelled").
  { destruct Hst as [Hst | Hst]; [| exact Hst].
    rewrite Hst, Hr'. reflexivity. }
  rewrite router_patch_cancel_unfold, Hx, Hc. reflexivity.
Qed.

(** X10. A booking does not change. Through any sequence of requests a
    stored reservation keeps its key, table, customer, guest count, date,
    start and end time, special requests and creation time; only its status
    and update time can differ. *)
Theorem booking_fields_fixed :
  forall db db' r,
    reachable db -> steps db db' -> In r (rows db) ->
    exists r',
      In r' (rows db') /\
      find (fun x => id x =? id r) (rows db') = Some r' /\
      same_booking r r'.
Proof.
  intros db db' r Hreach Hsteps Hin.
  destruct (reachable_store_ok _ Hreach) as (_ & _ & Hnodup & _).
  pose proof (In_find_by_id _ _ Hnodup Hin) as Hfind.
  destruct (steps_find _ _ _ _ Hsteps Hfind) as (r' & Hfind' & Hsame & _).
  exists r'. destruct (find_by_id _ _ _ Hfind') as [Hin' _]. auto.
Qed.

Lemma effect_ids (env : Env) (db db' : Store) (resp : Response) :
  effect env db resp db' ->
  map id (rows db) = map Z.of_nat (seq 1 (List.length (rows db))) /\
  next_id db = Z.of_nat (List.length (rows db)) + 1 ->
  map id (rows db') = map Z.of_nat (seq 1 (List.length (rows db'))) /\
  next_id db' = Z.of_nat (List.length (rows db')) + 1.
Proof.
  intros He [Hmap Hnext].
  destruct He as [resp _ _ | body v Hv Hfree | k r Hfind Hstatus].
  - auto.
  - cbn [rows next_id]. rewrite map_app, length_app. cbn [List.length map].
    rewrite Nat.add_1_r, seq_S, map_app, Hmap. cbn [map new_row id].
    split; [| lia]. f_equal. f_equal. lia.
  - cbn [rows next_id]. rewrite length_map.
    rewrite map_id_replace by reflexivity. auto.
Qed.

(** X11. Keys are given in order and never reused: in every store reached
    by sequential requests the rows, in the order they were created, have
    the keys 1, 2, 3, ..., and the next create gets the key after the
    last. *)
Theorem keys_are_consecutive :
  forall db,
    reachable db ->
    map id (rows db) = map Z.of_nat (seq 1 (List.length (rows db))) /\
    next_id db = Z.of_nat (List.length (rows db)) + 1.
Proof.
  intros db Hreach. unfold reachable in Hreach.
  remember empty_store as db0 eqn:H0.
  induction Hreach as [db | db db' env req Hs IH]; subst.
  - split; reflexivity.
  - eapply effect_ids; [apply handle_effect | apply IH; reflexivity].
Qed.

Lemma row_within_schema_new (env : Env) (body : CreateBody)
    (v : CreateValue) (db : Store) :
  createReservationSchema env body = inr v ->
  row_within_schema (new_row env v db).
Proof.
  intros Hv.
  destruct (createReservationSchema_cases env body)
    as [(Hnil & v' & Hv' & Hb) | (Hne & Hinl)];
    [| rewrite Hinl in Hv; discriminate].
  rewrite Hv in Hv'. injection Hv' as <-.
  apply create_issues_nil_iff in Hnil.
  unfold create_fields in Hnil. cbn [forallb] in Hnil.
  rewrite !andb_true_iff in Hnil.
  destruct Hnil as (H1 & H2 & H3 & H4 & H5 & H6 & H7 & H8 & _).
  subst body. unfold field_ok, body_of_value in *.
  cbn [b_table_id b_customer_name b_customer_email b_customer_phone
       b_guest_count b_reservation_date b_slot_start_time
       b_special_requests] in *.
  rewrite !andb_true_iff in *. rewrite negb_true_iff in H3.
  unfold row_within_schema, new_row.
  cbn [table_id customer_name customer_email customer_phone guest_count
       slot_start_time slot_end_time special_requests].
  destruct H1 as [H1 _].
  destruct H2 as [H2 H2']. destruct H3 as [H3 H3'].
  destruct H4 as [H4 H4']. destruct H5 as [H5 H5'].
  apply Z.ltb_lt in H1. apply Z.leb_le in H2, H2', H4, H4', H5, H5'.
  repeat split; try assumption.
  - intros He. rewrite He in H3. discriminate.
  - intros s Hs. rewrite Hs in H8. now apply Z.leb_le in H8.
Qed.

Lemma effect_rows_within_schema (env : Env) (db db' : Store)
    (resp : Response) :
  effect env db resp db' ->
  Forall row_within_schema (rows db) -> Forall row_within_schema (rows db').
Proof.
  intros He Hrows.
  destruct He as [resp _ _ | body v Hv Hfree | k r Hfind Hstatus].
  - exact Hrows.
  - cbn [rows]. apply Forall_app. split; [exact Hrows |].
    constructor; [| constructor].
    now apply row_within_schema_new with (body := body).
  - cbn [rows]. apply Forall_map.
    destruct (find_by_id _ _ _ Hfind) as [Hin _].
    assert (Hr : row_within_schema r)
      by (rewrite Forall_forall in Hrows; auto).
    eapply Forall_impl; [| exact Hrows].
    intros x Hx. unfold replace_row.
    destruct (id x =? id r); [exact Hr | exact Hx].
Qed.

(** X12. Stored rows stay within the create schema. In every store reached
    by sequential requests each reservation has a positive table_id, a
    customer_name of 1 to 100 characters, a customer_email that is a
    non-empty e-mail address, a customer_phone of 7 to 20 characters, a
    guest_count from 1 to 20, a slot_start_time of the ['HH:MM'] pattern,
    the slot_end_time two hours after it (modulo 24 hours), and
    special_requests of at most 500 characters when present. *)
Theorem rows_within_schema :
  forall db, reachable db -> Forall row_within_schema (rows db).
Proof.
  intros db Hreach. unfold reachable in Hreach.
  remember empty_store as db0 eqn:H0.
  induction Hreach as [db | db db' env req Hs IH]; subst.
  - constructor.
  - eapply effect_rows_within_schema;
      [apply handle_effect | apply IH; reflexivity].
Qed.

(** ** Availability after a create and after a cancel *)

Lemma router_get_availability_unfold (env : Env) (tableId date : Z)
    (db : Store) :
  handle env (GET_availability tableId (Some date)) db
  = (Availability tableId date (slots_of tableId date db), db).
Proof. reflexivity. Qed.

Lemma includes_app (l l' : list string) (x : string) :
  includes (l ++ l')%list x = includes l x || includes l' x.
Proof. unfold includes. apply existsb_app. Qed.

Lemma slot_eta (sl : Slot) :
  mkSlot (start_time sl) (end_time sl) (available sl) = sl.
Proof. destruct sl. reflexivity. Qed.

Lemma filter_two {A : Type} (p : A -> bool) (l : list A) (x y : A) :
  In x l -> In y l -> x <> y -> p x = true -> p y = true ->
  (2 <= List.length (filter p l))%nat.
Proof.
  assert (Hone : forall z l0, In z l0 -> p z = true ->
                   (1 <= List.length (filter p l0))%nat).
  { intros z l0 Hz Hp.
    assert (Hin : In z (filter p l0)) by (apply filter_In; auto).
    destruct (filter p l0); [destruct Hin | simpl; lia]. }
  induction l as [| a l IH]; intros Hx Hy Hne Hpx Hpy; [destruct Hx |].
  destruct Hx as [-> | Hx]; destruct Hy as [-> | Hy].
  - contradiction.
  - simpl. rewrite Hpx. simpl. specialize (Hone y l Hy Hpy). lia.
  - simpl. rewrite Hpy. simpl. specialize (Hone x l Hx Hpx). lia.
  - specialize (IH Hx Hy Hne Hpx Hpy). simpl.
    destruct (p a); simpl; lia.
Qed.

(** X13. A new booking blocks its own slot and nothing else. After a 201
    create the availability of any table and day is the availability
    before, except that the slot starting at the new reservation's start
    time, on its table and day, is no longer available. For another table
    or day, or when the new start time is none of the six listed ones (the
    create route accepts any ['HH:MM'] start time), the availability
    answer is the same as before. *)
Theorem create_blocks_only_its_slot :
  forall env body db r db',
    handle env (POST_reservations body) db = (Created r, db') ->
    forall env' t d,
      handle env' (GET_availability t (Some d)) db
        = (Availability t d (slots_of t d db), db) /\
      handle env' (GET_availability t (Some d)) db'
        = (Availability t d (slots_of t d db'), db') /\
      slots_of t d db'
        = map (fun sl =>
                 mkSlot (start_time sl) (end_time sl)
                   (available sl &&
                    negb ((t =? table_id r) && (d =? reservation_date r) &&
                          String.eqb (start_time sl) (slot_start_time r))))
            (slots_of t d db) /\
      (t <> table_id r \/ d <> reservation_date r \/
       ~ In (slot_start_time r) allSlots ->
       slots_of t d db' = slots_of t d db).
Proof.
  intros env body db r db' Hpost env' t d.
  apply router_post_created in Hpost. destruct Hpost as (v & Hv & Hr & Hdb').
  apply createReservationSchema_value in Hv.
  destruct Hv as (_ & _ & _ & _ & _ & _ & _ & Hpat).
  assert (Hsub : JS.substring0 5 (slot_start_time r) = slot_start_time r).
  { apply substring0_pattern. rewrite Hr. exact Hpat. }
  assert (Hst : status r = "confirmed") by (rewrite Hr; reflexivity).
  assert (Hinc : forall slot,
            includes (bookedSlotTimes t d db') slot
            = includes (bookedSlotTimes t d db) slot ||
              ((t =? table_id r) && (d =? reservation_date r) &&
               String.eqb slot (slot_start_time r))).
  { intros slot. unfold bookedSlotTimes. rewrite Hdb'. cbn [rows].
    rewrite filter_app, map_app, includes_app. f_equal.
    cbn [filter]. unfold where_matches, fixed.
    cbn [w_table_id w_reservation_date w_slot_start_time w_status].
    rewrite Hst, String.eqb_refl, !andb_true_r.
    rewrite (Z.eqb_sym t), (Z.eqb_sym d).
    destruct ((table_id r =? t) && (reservation_date r =? d));
      [| reflexivity].
    cbn [map includes existsb]. rewrite Hsub, orb_false_r. reflexivity. }
  assert (Hslots : slots_of t d db'
            = map (fun sl =>
                     mkSlot (start_time sl) (end_time sl)
                       (available sl &&
                        negb ((t =? table_id r) &&
                              (d =? reservation_date r) &&
                              String.eqb (start_time sl)
                                (slot_start_time r))))
                (slots_of t d db)).
  { unfold slots_of. rewrite map_map. apply map_ext. intros slot.
    cbn [start_time end_time available]. rewrite Hinc, negb_orb.
    reflexivity. }
  split; [apply router_get_availability_unfold |].
  split; [apply router_get_availability_unfold |].
  split; [exact Hslots |].
  intros Hother. rewrite Hslots.
  rewrite <- (map_id (slots_of t d db)) at 2.
  apply map_ext_in. intros sl Hsl.
  assert (Hfalse : (t =? table_id r) && (d =? reservation_date r) &&
                   String.eqb (start_time sl) (slot_start_time r) = false).
  { destruct Hother as [Ht | [Hd | Hs]].
    - apply Z.eqb_neq in Ht. now rewrite Ht.
    - apply Z.eqb_neq in Hd. rewrite Hd. apply andb_false_iff. left.
      apply andb_false_r.
    - apply andb_false_iff. right. apply String.eqb_neq. intros Heq.
      apply Hs. rewrite <- Heq. unfold slots_of in Hsl.
      apply in_map_iff in Hsl. destruct Hsl as (slot & <- & Hin).
      exact Hin. }
  rewrite Hfalse. cbn [negb]. rewrite andb_true_r. apply slot_eta.
Qed.

(** X14. A cancellation frees the slot. In a store reached by sequential
    requests, after a cancel request has answered 200 no confirmed
    reservation holds the table, day and start time of the cancelled one:
    a create request for that slot (its date falls, in the server's zone,
    on the day the cancelled row keeps) that passes validation and the
    table checks is answered 201, and the availability of that table and
    day shows the slot available again. *)
Theorem cancel_frees_slot :
  forall env k db r' db',
    reachable db ->
    handle env (PATCH_cancel k) db = (Cancelled r', db') ->
    (forall x, In x (rows db') ->
       holds_slot (table_id r') (reservation_date r') (slot_start_time r') x
         = false) /\
    (forall env2 b2 v2 t2,
       createReservationSchema env2 b2 = inr v2 ->
       v_table_id v2 = table_id r' ->
       dateonly (v_reservation_date v2) = reservation_date r' ->
       v_slot_start_time v2 = slot_start_time r' ->
       fetchTableInfo env2 (v_table_id v2) = Some t2 ->
       is_active t2 = true ->
       v_guest_count v2 <= seating_capacity t2 ->
       exists r2,
         fst (handle env2 (POST_reservations b2) db') = Created r2) /\
    (forall env',
       handle env'
         (GET_availability (table_id r') (Some (reservation_date r'))) db'
       = (Availability (table_id r') (reservation_date r')
            (slots_of (table_id r') (reservation_date r') db'), db')) /\
    (forall sl,
       In sl (slots_of (table_id r') (reservation_date r') db') ->
       start_time sl = slot_start_time r' -> available sl = true).
Proof.
  intros env k db r' db' Hreach Hcancel.
  assert (Hreach' : reachable db').
  { replace db' with (snd (handle env (PATCH_cancel k) db))
      by (rewrite Hcancel; reflexivity).
    apply steps_next. exact Hreach. }
  apply router_patch_cancelled in Hcancel.
  destruct Hcancel as (r & Hfind & Hnot & Hr' & Hdb').
  destruct (reachable_store_ok _ Hreach) as (Hrows & _ & _ & Huniq).
  destruct (find_by_id _ _ _ Hfind) as [Hin Hk].
  rewrite Forall_forall in Hrows.
  destruct (Hrows r Hin) as (_ & Hstatus & _).
  assert (Hconf : status r = "confirmed").
  { destruct Hstatus as [H | H]; [exact H |].
    rewrite H in Hnot. discriminate. }
  assert (Hfree : forall x, In x (rows db') ->
            holds_slot (table_id r') (reservation_date r')
              (slot_start_time r') x = false).
  { intros x Hx. rewrite Hdb' in Hx. cbn [rows] in Hx.
    apply in_map_iff in Hx. destruct Hx as (x0 & <- & Hx0).
    unfold replace_row. destruct (id x0 =? id r) eqn:E.
    - rewrite Hr'. unfold holds_slot. cbn [status cancelled_row with_status
        with_updated_at]. apply andb_false_r.
    - destruct (holds_slot (table_id r') (reservation_date r')
                  (slot_start_time r') x0) eqn:Hh; [| reflexivity].
      exfalso.
      assert (Hr : holds_slot (table_id r') (reservation_date r')
                     (slot_start_time r') r = true).
      { apply holds_slot_iff. rewrite Hr'. auto. }
      assert (Hne : x0 <> r).
      { intros ->. rewrite Z.eqb_refl in E. discriminate. }
      pose proof (filter_two _ _ _ _ Hx0 Hin Hne Hh Hr) as H2.
      specialize (Huniq (table_id r') (reservation_date r')
                    (slot_start_time r')). lia. }
  split; [exact Hfree |]. split.
  - intros env2 b2 v2 t2 Hv2 Ht Hd Hs Hfetch Hactive Hcap.
    rewrite router_post_unfold, Hv2, Hfetch, Hactive.
    replace (seating_capacity t2 <? v_guest_count v2) with false
      by (symmetry; apply Z.ltb_ge; exact Hcap).
    cbn [negb]. rewrite Ht, Hd, Hs.
    destruct (find (holds_slot _ _ _) (rows db')) as [x |] eqn:Hf.
    + apply find_some in Hf. destruct Hf as [Hx Hh].
      rewrite (Hfree x Hx) in Hh. discriminate.
    + eexists. reflexivity.
  - split; [intros env'; apply router_get_availability_unfold |].
    intros sl Hsl Hstart.
    unfold slots_of in Hsl. apply in_map_iff in Hsl.
    destruct Hsl as (slot & <- & _). cbn [start_time] in Hstart.
    cbn [available]. apply negb_true_iff.
    destruct (includes _ slot) eqn:Hinc; [| reflexivity].
    exfalso. unfold includes in Hinc. apply existsb_exists in Hinc.
    destruct Hinc as (s0 & Hs0 & Heq). apply String.eqb_eq in Heq. subst s0.
    unfold bookedSlotTimes in Hs0. apply in_map_iff in Hs0.
    destruct Hs0 as (x & Hxs & Hx). apply filter_In in Hx.
    destruct Hx as [Hx Hw]. apply where_confirmed_iff in Hw.
    destruct (reachable_store_ok _ Hreach') as (Hrows' & _).
    rewrite Forall_forall in Hrows'.
    rewrite substring0_pattern in Hxs by apply (Hrows' x Hx).
    assert (Hh : holds_slot (table_id r') (reservation_date r')
                   (slot_start_time r') x = true).
    { apply holds_slot_iff. rewrite <- Hstart, Hxs. tauto. }
    rewrite (Hfree x Hx) in Hh. discriminate.
Qed.

(** ** Paging through a list *)

Lemma router_get_list_valid (env : Env) (q : ListQuery) (db : Store) :
  query_valid q ->
  handle env (GET_reservations q) db
  = (Listed
       (firstn (Z.to_nat (default 20 (q_limit q)))
          (skipn (Z.to_nat ((default 1 (q_page q) - 1)
                            * default 20 (q_limit q)))
             (order_rows (filter (matches_filters q) (rows db)))))
       (Z.of_nat (List.length (filter (matches_filters q) (rows db))))
       (default 1 (q_page q))
       (ceil_div
          (Z.of_nat (List.length (filter (matches_filters q) (rows db))))
          (default 20 (q_limit q))),
     db).
Proof.
  intros Hvalid.
  unfold_handler. unfold queryReservationsSchema.
  rewrite (proj2 (query_issues_nil_iff q) Hvalid).
  cbn [lv_table_id lv_date lv_status lv_page lv_limit fst snd].
  rewrite (filter_ext _ _ (fun r => where_matches_filters q r Hvalid)).
  reflexivity.
Qed.

Lemma firstn_add {A : Type} (a b : nat) (l : list A) :
  firstn (a + b) l = (firstn a l ++ firstn b (skipn a l))%list.
Proof.
  revert l. induction a as [| a IH]; intros l; [reflexivity |].
  destruct l as [| x l]; simpl.
  - now rewrite firstn_nil.
  - now rewrite IH.
Qed.

(** The first [n] chunks of [L] elements are the first [n * L] elements. *)
Lemma chunks_concat {A : Type} (L n : nat) (l : list A) :
  List.concat (map (fun i => firstn L (skipn (i * L) l)) (seq 0 n))
  = firstn (n * L) l.
Proof.
  induction n as [| n IH]; [reflexivity |].
  rewrite seq_S, map_app, concat_app, IH. cbn [map List.concat].
  rewrite app_nil_r. replace (S n * L)%nat with (n * L + L)%nat by lia.
  now rewrite firstn_add.
Qed.

Lemma page_offset (i : nat) (limit : Z) :
  0 <= limit ->
  Z.to_nat ((Z.of_nat (S i) - 1) * limit) = (i * Z.to_nat limit)%nat.
Proof.
  intros Hl. replace (Z.of_nat (S i) - 1) with (Z.of_nat i) by lia.
  rewrite Z2Nat.inj_mul by lia. now rewrite Nat2Z.id.
Qed.


(** X16. A new booking shows in the lists whose filters it passes. After a
    201 create, a list query that passes validation answers with a total
    that is one more than before when the new reservation passes its
    filters (the day it keeps is the day of the date filter, both taken in
    the server's zone; its table and its status are those asked for), and
    with the same rows and total as before when it does not. *)
Theorem created_is_listed :
  forall env body db r db',
    handle env (POST_reservations body) db = (Created r, db') ->
    forall env' q,
      query_valid q ->
      exists rs rs' total tp tp',
        handle env' (GET_reservations q) db
          = (Listed rs total (default 1 (q_page q)) tp, db) /\
        handle env' (GET_reservations q) db'
          = (Listed rs'
               (total + (if matches_filters q r then 1 else 0))
               (default 1 (q_page q)) tp', db') /\
        (matches_filters q r = false -> rs' = rs /\ tp' = tp).
Proof.
  intros env body db r db' Hpost env' q Hvalid.
  apply router_post_created in Hpost. destruct Hpost as (v & _ & _ & Hdb').
  rewrite !router_get_list_valid by exact Hvalid.
  assert (Hfilter : filter (matches_filters q) (rows db')
                    = (filter (matches_filters q) (rows db) ++
                       (if matches_filters q r then [r] else []))%list).
  { rewrite Hdb'. cbn [rows]. rewrite filter_app. cbn [filter].
    destruct (matches_filters q r); reflexivity. }
  assert (Htotal : Z.of_nat (List.length (filter (matches_filters q)
                                            (rows db')))
                   = Z.of_nat (List.length (filter (matches_filters q)
                                              (rows db)))
                     + (if matches_filters q r then 1 else 0)).
  { rewrite Hfilter, length_app.
    destruct (matches_filters q r); cbn [List.length]; lia. }
  rewrite Htotal, Hfilter.
  do 5 eexists. split; [reflexivity |]. split; [reflexivity |].
  intros Hno. rewrite Hno, app_nil_r, Z.add_0_r. split; reflexivity.
Qed.

End Routes.

(** ** The properties at one booking

    The reservation of [booked_row], made at noon of 2026-11-02 on a
    server that keeps UTC, with an e-mail rule that accepts every
    address. *)

Lemma booked_store_reachable : reachable (fun _ => true) (fun _ => 0) booked_store.
Proof.
  change booked_store
    with (snd (handle (fun _ => true) (fun _ => 0) noon_env
                 (POST_reservations (body_for 20812)) empty_store)).
  apply steps_next, steps_refl.
Qed.

(** On a server five hours west of UTC the row of a request for 2026-12-25
    keeps 2026-12-24, the day midnight UTC falls on there, and a second
    request for the same date finds it. *)
Example west_of_utc_keeps_the_day_before :
  let west := fun _ : Z => -5 * MS_PER_HOUR in
  let env := mkEnv (now noon_env) (-5 * MS_PER_HOUR) (fetch noon_env) in
  exists r db',
    handle (fun _ => true) west env (POST_reservations (body_for 20812))
      empty_store = (Created r, db') /\
    reservation_date r = 20811 /\
    fst (handle (fun _ => true) west env (POST_reservations (body_for 20812))
           db') = Failure 409 DoubleBooking.
Proof.
  eexists. eexists. split; [vm_compute; reflexivity |].
  split; reflexivity.
Qed.

(** A page beyond the safe integers is refused by [Joi.number()], and so is
    a table_id beyond them in a create request. *)
Example unsafe_numbers_are_refused :
  fst (handle (fun _ => true) (fun _ => 0) noon_env
         (GET_reservations
            (mkListQuery None None None (Some 9007199254740993) None))
         booked_store)
    = ValidationFailed [(F_page, number_unsafe)] /\
  fst (handle (fun _ => true) (fun _ => 0) noon_env
         (POST_reservations
            (mkCreateBody (Some 9007199254740993) (Some "John Doe")
               (Some "john@example.com") (Some "+1234567890") (Some 3)
               (Some (iso_date 20812)) (Some "18:00") None))
         empty_store)
    = ValidationFailed [(F_table_id, number_unsafe)].
Proof. split; reflexivity. Qed.

Lemma no_filter_valid : query_valid no_filter.
Proof. repeat split; intros; discriminate. Qed.

Lemma no_double_booking_witness :
  handle (fun _ => true) (fun _ => 0) noon_env (POST_reservations (body_for 20812))
    booked_store = (Failure 409 DoubleBooking, booked_store).
Proof.
  apply (proj1 (no_double_booking (fun _ => true) (fun _ => 0))
           noon_env noon_env (body_for 20812) (body_for 20812)
           empty_store booked_store booked_store booked_row booked_row
           (value_for 20812) (mkTable 1 4 true)).
  - apply steps_refl.
  - reflexivity.
  - apply steps_refl.
  - reflexivity.
  - reflexivity.
  - reflexivity.
  - reflexivity.
  - reflexivity.
  - reflexivity.
  - reflexivity.
  - reflexivity.
  - simpl. lia.
Defined.


Lemma cancel_rules_witness :
  exists r',
    fst (handle (fun _ => true) (fun _ => 0) noon_env (PATCH_cancel 1) booked_store)
      = Cancelled r' /\
    status r' = "cancelled" /\ same_booking booked_row r'.
Proof.
  destruct (cancel_rules (fun _ => true) (fun _ => 0) noon_env 1 booked_store booked_row
              booked_store_reachable eq_refl)
    as (h & m & _ & _ & _ & Hd & _ & _ & _ & Hok).
  assert (Hc : less_than_one (diffHours noon_env booked_row) = false)
    by (vm_compute; reflexivity).
  rewrite Hd in Hc. unfold less_than_one in Hc.
  apply negb_false_iff in Hc. apply Qle_bool_iff in Hc.
  destruct (Hok ltac:(discriminate) Hc)
    as (r' & Hr & _ & _ & Hs & _ & _ & Hsame).
  exists r'. auto.
Defined.

Lemma calculateEndTime_wraps_witness :
  calculateEndTime (hhmm 23 30) = hhmm ((23 + 2) mod 24) 30.
Proof.
  apply (proj1 (proj2 calculateEndTime_wraps) 23%N 30%N); lia.
Defined.

Lemma availability_slots_witness :
  exists slots,
    handle (fun _ => true) (fun _ => 0) noon_env (GET_availability 1 (Some 20812))
      booked_store = (Availability 1 20812 slots, booked_store) /\
    map start_time slots =
      ["10:00"; "12:00"; "14:00"; "16:00"; "18:00"; "20:00"].
Proof.
  destruct (availability_slots (fun _ => true) (fun _ => 0) noon_env 1 20812 booked_store
              booked_store_reachable)
    as (slots & H1 & H2 & _).
  exists slots. auto.
Defined.

Lemma status_lifecycle_witness :
  status booked_row = "confirmed" \/ status booked_row = "cancelled".
Proof.
  apply (proj1 (status_lifecycle (fun _ => true) (fun _ => 0)) booked_store
           booked_store_reachable booked_row).
  simpl. auto.
Defined.


Lemma get_by_id_witness :
  handle (fun _ => true) (fun _ => 0) noon_env (GET_reservation 9999) booked_store
    = (Failure 404 ReservationNotFound, booked_store).
Proof.
  apply (proj1 (get_by_id (fun _ => true) (fun _ => 0) noon_env 9999 booked_store)).
  reflexivity.
Defined.

Lemma rejections_write_nothing_witness :
  snd (handle (fun _ => true) (fun _ => 0) noon_env (POST_reservations (body_for 20812))
         booked_store) = booked_store.
Proof.
  apply (rejections_write_nothing (fun _ => true) (fun _ => 0)).
  right. right. reflexivity.
Defined.

(** ** Further properties at the same booking *)

Lemma calculateEndTime_valid_injective_witness :
  slot_start_time_pattern (calculateEndTime "23:30") = true /\
  calculateEndTime "23:30" <> "23:30".
Proof.
  destruct (calculateEndTime_valid_injective "23:30" eq_refl) as (H1 & H2 & _).
  split; assumption.
Defined.

Lemma calculateEndTime_next_day_witness :
  exists h',
    calculateEndTime (hhmm 22 15) = hhmm h' 15 /\ (h' <= 23)%N.
Proof.
  destruct (calculateEndTime_next_day 22 15 ltac:(lia) ltac:(lia))
    as (h' & H1 & H2 & _).
  exists h'. split; assumption.
Defined.

Lemma cancelled_store_steps : steps (fun _ => true) (fun _ => 0) booked_store cancelled_store.
Proof.
  change cancelled_store
    with (snd (handle (fun _ => true) (fun _ => 0) noon_env (PATCH_cancel 1) booked_store)).
  apply steps_next, steps_refl.
Qed.

Lemma create_validation_reports_all_witness :
  handle (fun _ => true) (fun _ => 0) noon_env (POST_reservations empty_body) empty_store
  = (ValidationFailed
       [(F_table_id, any_required); (F_customer_name, any_required);
        (F_customer_email, any_required); (F_customer_phone, any_required);
        (F_guest_count, any_required); (F_reservation_date, any_required);
        (F_slot_start_time, any_required)],
     empty_store).
Proof.
  apply (create_validation_reports_all (fun _ => true) (fun _ => 0) noon_env empty_body).
  reflexivity.
Defined.

Lemma created_is_fetched_witness :
  exists view,
    handle (fun _ => true) (fun _ => 0) noon_env (GET_reservation (id booked_row))
      booked_store = (Fetched booked_row view, booked_store).
Proof.
  apply (proj1 (proj2 (created_is_fetched (fun _ => true) (fun _ => 0) noon_env
                         (body_for 20812) empty_store booked_row
                         booked_store (steps_refl _ _ empty_store) eq_refl))).
Defined.

Lemma cancel_is_final_witness :
  handle (fun _ => true) (fun _ => 0) noon_env (PATCH_cancel 1) cancelled_store
  = (Failure 400 AlreadyCancelled, cancelled_store).
Proof.
  apply (cancel_is_final (fun _ => true) (fun _ => 0) noon_env 1 booked_store
           (cancelled_row noon_env booked_row) cancelled_store).
  - reflexivity.
  - apply steps_refl.
Defined.

Lemma booking_fields_fixed_witness :
  exists r',
    In r' (rows cancelled_store) /\
    find (fun x => id x =? id booked_row) (rows cancelled_store) = Some r' /\
    same_booking booked_row r'.
Proof.
  apply (booking_fields_fixed (fun _ => true) (fun _ => 0) booked_store cancelled_store
           booked_row booked_store_reachable cancelled_store_steps).
  simpl. auto.
Defined.

Lemma keys_are_consecutive_witness :
  map id (rows booked_store)
    = map Z.of_nat (seq 1 (List.length (rows booked_store))) /\
  next_id booked_store = Z.of_nat (List.length (rows booked_store)) + 1.
Proof.
  apply (keys_are_consecutive (fun _ => true) (fun _ => 0) booked_store
           booked_store_reachable).
Defined.

Lemma rows_within_schema_witness :
  Forall (row_within_schema (fun _ => true)) (rows booked_store).
Proof.
  apply (rows_within_schema (fun _ => true) (fun _ => 0) booked_store
           booked_store_reachable).
Defined.

Lemma create_blocks_only_its_slot_witness :
  handle (fun _ => true) (fun _ => 0) noon_env (GET_availability 1 (Some 20812))
    booked_store
  = (Availability 1 20812 (slots_of 1 20812 booked_store), booked_store).
Proof.
  apply (proj1 (proj2 (create_blocks_only_its_slot (fun _ => true) (fun _ => 0) noon_env
                         (body_for 20812) empty_store booked_row
                         booked_store eq_refl noon_env 1 20812))).
Defined.

Lemma cancel_frees_slot_witness :
  exists r2,
    fst (handle (fun _ => true) (fun _ => 0) noon_env (POST_reservations (body_for 20812))
           cancelled_store) = Created r2.
Proof.
  apply (proj1 (proj2 (cancel_frees_slot (fun _ => true) (fun _ => 0) noon_env 1
                         booked_store (cancelled_row noon_env booked_row)
                         cancelled_store booked_store_reachable eq_refl))
           noon_env (body_for 20812) (value_for 20812) (mkTable 1 4 true));
    try reflexivity.
  simpl. lia.
Defined.


Lemma created_is_listed_witness :
  exists rs' total tp',
    handle (fun _ => true) (fun _ => 0) noon_env (GET_reservations no_filter) booked_store
    = (Listed rs' total 1 tp', booked_store).
Proof.
  destruct (created_is_listed (fun _ => true) (fun _ => 0) noon_env (body_for 20812)
              empty_store booked_row booked_store eq_refl noon_env
              no_filter no_filter_valid)
    as (rs & rs' & total & tp & tp' & _ & H & _).
  exists rs', (total + (if matches_filters (fun _ => 0) no_filter booked_row then 1 else 0)),
    tp'.
  exact H.
Defined.
